(** * Reclame Aqui monitor: scraper, store, scheduler and HTTP routes

    A shallow embedding of the four source files of the backend
    (scraper.js, database.js, scheduler.js, server.js) and the properties
    of the fetch / deduplicate / schedule pipeline proved about them.

    Conventions of the embedding.
    - A JavaScript string is a [string] holding the UTF-8 bytes of the text,
      so the literals below read as they do in the source.
    - An instant ([new Date()], an ISO-8601 rendering of it, a TIMESTAMP
      column) is the integer number of milliseconds it denotes.
    - Everything the process shares lives in one record, [Mundo]: the
      PostgreSQL tables, the [jobsAtivos] map, the tasks node-cron holds,
      what was written with [console.error], and the answers the
      environment will give (clock readings, HTTP responses, storage
      failures).  A function of the source is a state transformer over
      [Mundo] that returns a value or throws.
    - [console.log] progress messages are left out; [console.error] is kept,
      being the way the code reports failures it does not propagate.
    - [client.release()] in the [finally] blocks is left out: the pool's
      bookkeeping is read by none of the functions modelled here. *)

From Stdlib Require Import Ascii String ZArith Lia.
From stdpp Require Import base option list sorting strings pretty gmap.

Local Open Scope string_scope.
Local Open Scope Z_scope.

(** ** JavaScript strings *)

Definition cod (a : ascii) : nat := nat_of_ascii a.

(** One-byte white space and line terminators: TAB, LF, VT, FF, CR, SP. *)
Definition ws1 (a : ascii) : bool :=
  bool_decide (cod a ∈ [9; 10; 11; 12; 13; 32]%nat).

(** U+00A0. *)
Definition ws2 (a b : ascii) : bool :=
  bool_decide (cod a = 194%nat ∧ cod b = 160%nat).

(** U+1680, U+2000..U+200A, U+2028, U+2029, U+202F, U+205F, U+3000, U+FEFF. *)
Definition ws3 (a b c : ascii) : bool :=
  bool_decide ((cod a, cod b, cod c) ∈
    [ (225, 154, 128); (226, 128, 128); (226, 128, 129); (226, 128, 130);
      (226, 128, 131); (226, 128, 132); (226, 128, 133); (226, 128, 134);
      (226, 128, 135); (226, 128, 136); (226, 128, 137); (226, 128, 138);
      (226, 128, 168); (226, 128, 169); (226, 128, 175); (226, 129, 159);
      (227, 128, 128); (239, 187, 191) ]%nat).

(** [String.prototype.trimStart]: drops leading white-space characters. *)
Fixpoint trimStart (s : string) : string :=
  match s with
  | EmptyString => EmptyString
  | String a s1 =>
      if ws1 a then trimStart s1 else
      match s1 with
      | EmptyString => s
      | String b s2 =>
          if ws2 a b then trimStart s2 else
          match s2 with
          | EmptyString => s
          | String c s3 => if ws3 a b c then trimStart s3 else s
          end
      end
  end.

(** The text is white space only. *)
Definition so_espacos (s : string) : bool := bool_decide (trimStart s = "").

(** [String.prototype.trimEnd]: drops the longest white-space suffix. *)
Fixpoint trimEnd (s : string) : string :=
  match s with
  | EmptyString => EmptyString
  | String a s1 => if so_espacos s then "" else String a (trimEnd s1)
  end.

(** [String.prototype.trim]. *)
Definition trim (s : string) : string := trimEnd (trimStart s).

(** [String.prototype.toLowerCase] on the ASCII letters; other bytes are
    kept.  The characters outside ASCII whose lower case holds an ASCII
    letter are U+212A (giving k) and U+0130 (giving i followed by U+0307);
    no key looked up below holds a k or U+0307, so whether the lower-cased
    text is such a key is the same here as in the source, on every input. *)
Definition minuscula (a : ascii) : ascii :=
  if bool_decide (65 ≤ cod a ≤ 90)%nat then ascii_of_nat (cod a + 32) else a.

Fixpoint toLowerCase (s : string) : string :=
  match s with
  | EmptyString => EmptyString
  | String a s1 => String (minuscula a) (toLowerCase s1)
  end.

(** [s.split('/').pop()]: what follows the last slash (all of [s] when it
    has none). *)
Fixpoint ultimo_segmento (s : string) : string :=
  match s with
  | EmptyString => EmptyString
  | String a s1 =>
      if bool_decide (a = "/"%char)
      then ultimo_segmento s1
      else if bool_decide (String.index 0 "/" s1 = None)
           then s
           else ultimo_segmento s1
  end.

(** A string in a boolean position: the empty string is falsy. *)
Definition truthy (s : string) : bool := negb (bool_decide (s = "")).

(** [s || d] *)
Definition ou (s d : string) : string := if truthy s then s else d.

(** ** Thrown values

    The properties of an error object the code reads: [message] always,
    [code] on the errors of the pg driver, [response.status] and [request]
    on those of axios. *)

Record JsErro := {
  message : string;
  code : option string;
  response : option Z;
  request : bool
}.

#[global] Instance JsErro_eq_dec : EqDecision JsErro.
Proof. solve_decision. Defined.

(** [new Error(msg)] *)
Definition novo_Error (msg : string) : JsErro :=
  {| message := msg; code := None; response := None; request := false |}.

Inductive Resultado (A : Type) : Type :=
  | Retorno (a : A)
  | Excecao (e : JsErro).
Arguments Retorno {A} a.
Arguments Excecao {A} e.

(** ** Records of the data model *)

(** The [data] field: the text found on the page, or the ISO rendering of a
    clock reading. *)
Inductive Data :=
  | DataTexto (s : string)
  | DataISO (t : Z).

#[global] Instance Data_eq_dec : EqDecision Data.
Proof. solve_decision. Defined.

(** The object [buscarReclamacoes] pushes for a card. *)
Record Reclamacao := {
  id : option string;
  titulo : string;
  descricao : string;
  status : string;
  data : Data;
  local : string;
  empresa : string;
  link : option string;
  coletadoEm : Z
}.

#[global] Instance Reclamacao_eq_dec : EqDecision Reclamacao.
Proof. solve_decision. Defined.

(** A row of table [reclamacoes].  The surrogate key [id SERIAL] is left
    out: no statement of the repository reads or compares it. *)
Record LinhaReclamacao := {
  id_externo : option string;
  col_empresa : string;
  col_titulo : string;
  col_descricao : string;
  col_status : string;
  col_data : Data;
  col_local : string;
  col_link : option string;
  coletado_em : Z
}.

#[global] Instance LinhaReclamacao_eq_dec : EqDecision LinhaReclamacao.
Proof. solve_decision. Defined.

(** A row of table [configuracoes] (the configuration ledger). *)
Record LinhaConfig := {
  cfg_empresa : string;
  cfg_intervalo : string;
  ativo : bool;
  criado_em : Z;
  atualizado_em : Z
}.

#[global] Instance LinhaConfig_eq_dec : EqDecision LinhaConfig.
Proof. solve_decision. Defined.

(** The database: its two tables, the value [CURRENT_TIMESTAMP] has, and
    the verdicts of the engine on the operations to come.  Each
    [pool.connect()] and each [client.query()] consumes one verdict:
    [Some e] makes the operation fail with [e] (connection lost, a text
    longer than its VARCHAR column, ...), [None] and the exhausted list let
    the statement run on the tables. *)
Record Banco := {
  reclamacoes : list LinhaReclamacao;
  configuracoes : list LinhaConfig;
  current_timestamp : Z;
  falhas : list (option JsErro)
}.

(** A complaint card of the fetched document, as the queries of the
    scraper see it: [.find(sel).text()] for the five [data-testid]
    selectors (the empty string when nothing matches) and
    [.find('a').attr('href')] ([None] for [undefined]). *)
Record Card := {
  texto_titulo : string;
  texto_descricao : string;
  texto_status : string;
  texto_data : string;
  texto_local : string;
  href : option string
}.

(** What [axios.get] settles with: the document of a 2xx response, given by
    the nodes that [$('.sc-1pe7b5t-0')] selects in document order, or the
    error axios rejects with. *)
Inductive RespostaAxios :=
  | Resolve (cards : list Card)
  | Reject (e : JsErro).

(** A task held by node-cron. *)
Record TarefaCron := {
  expressao : string;
  alvo : string;
  rodando : bool
}.

(** A value of [jobsAtivos]; [job] is the position of the task in
    [tarefas]. *)
Record JobInfo := {
  job : nat;
  intervalo : string;
  iniciado : Z
}.

(** A [console.error] call. *)
Inductive Registro :=
  | RegErro (texto : string) (erro : JsErro)
  | RegMensagem (texto : string) (msg : string)
  | RegTexto (texto : string).

(** The process and what surrounds it: the database behind [pool]; the
    [jobsAtivos] map of scheduler.js; the tasks node-cron holds; the
    companies for which a cycle was launched and not awaited; the calls of
    [console.error]; the readings [new Date()] will give (0 once they run
    out); the answers [axios.get] will settle with. *)
Record Mundo := {
  banco : Banco;
  jobsAtivos : gmap string JobInfo;
  tarefas : list TarefaCron;
  ciclos : list string;
  console : list Registro;
  relogio : list Z;
  rede : list RespostaAxios
}.

(** *** Field updates *)

Definition com_banco (b : Banco) (m : Mundo) : Mundo :=
  {| banco := b; jobsAtivos := jobsAtivos m; tarefas := tarefas m;
     ciclos := ciclos m; console := console m; relogio := relogio m;
     rede := rede m |}.

Definition com_jobsAtivos (j : gmap string JobInfo) (m : Mundo) : Mundo :=
  {| banco := banco m; jobsAtivos := j; tarefas := tarefas m;
     ciclos := ciclos m; console := console m; relogio := relogio m;
     rede := rede m |}.

Definition com_tarefas (t : list TarefaCron) (m : Mundo) : Mundo :=
  {| banco := banco m; jobsAtivos := jobsAtivos m; tarefas := t;
     ciclos := ciclos m; console := console m; relogio := relogio m;
     rede := rede m |}.

Definition com_ciclos (c : list string) (m : Mundo) : Mundo :=
  {| banco := banco m; jobsAtivos := jobsAtivos m; tarefas := tarefas m;
     ciclos := c; console := console m; relogio := relogio m;
     rede := rede m |}.

Definition com_console (c : list Registro) (m : Mundo) : Mundo :=
  {| banco := banco m; jobsAtivos := jobsAtivos m; tarefas := tarefas m;
     ciclos := ciclos m; console := c; relogio := relogio m;
     rede := rede m |}.

Definition com_relogio (r : list Z) (m : Mundo) : Mundo :=
  {| banco := banco m; jobsAtivos := jobsAtivos m; tarefas := tarefas m;
     ciclos := ciclos m; console := console m; relogio := r;
     rede := rede m |}.

Definition com_rede (r : list RespostaAxios) (m : Mundo) : Mundo :=
  {| banco := banco m; jobsAtivos := jobsAtivos m; tarefas := tarefas m;
     ciclos := ciclos m; console := console m; relogio := relogio m;
     rede := r |}.

Definition com_reclamacoes (l : list LinhaReclamacao) (b : Banco) : Banco :=
  {| reclamacoes := l; configuracoes := configuracoes b;
     current_timestamp := current_timestamp b; falhas := falhas b |}.

Definition com_configuracoes (l : list LinhaConfig) (b : Banco) : Banco :=
  {| reclamacoes := reclamacoes b; configuracoes := l;
     current_timestamp := current_timestamp b; falhas := falhas b |}.

Definition com_falhas (f : list (option JsErro)) (b : Banco) : Banco :=
  {| reclamacoes := reclamacoes b; configuracoes := configuracoes b;
     current_timestamp := current_timestamp b; falhas := f |}.

(** ** Computations that read and write the world and may throw *)

Definition Efeito (A : Type) : Type := Mundo → Mundo * Resultado A.

Definition retorna {A} (a : A) : Efeito A := λ m, (m, Retorno a).

Definition lanca {A} (e : JsErro) : Efeito A := λ m, (m, Excecao e).

Definition liga {A B} (c : Efeito A) (k : A → Efeito B) : Efeito B :=
  λ m, match c m with
       | (m', Retorno a) => k a m'
       | (m', Excecao e) => (m', Excecao e)
       end.

(** [try { c } catch (erro) { h erro }] *)
Definition tenta {A} (c : Efeito A) (h : JsErro → Efeito A) : Efeito A :=
  λ m, match c m with
       | (m', Retorno a) => (m', Retorno a)
       | (m', Excecao e) => h e m'
       end.

Declare Scope efeito_scope.
Delimit Scope efeito_scope with efeito.
Notation "'seja' x ':=' c 'em' k" := (liga c (λ x, k))
  (at level 10, x name, c at level 100, k at level 200) : efeito_scope.
Notation "c ';;;' k" := (liga c (λ _, k))
  (at level 100, k at level 200, right associativity) : efeito_scope.
Local Open Scope efeito_scope.

Definition console_error (r : Registro) : Efeito unit :=
  λ m, (com_console (console m ++ [r])%list m, Retorno tt).

(** [new Date()]: the next reading of the clock. *)
Definition new_Date : Efeito Z :=
  λ m, (com_relogio (tail (relogio m)) m, Retorno (hd 0 (relogio m))).

(** The engine's verdict on the next operation. *)
Definition proxima_falha : Efeito (option JsErro) :=
  λ m, (com_banco (com_falhas (tail (falhas (banco m))) (banco m)) m,
        Retorno (hd None (falhas (banco m)))).

(** [pool.connect()] *)
Definition pool_connect : Efeito unit :=
  seja f := proxima_falha em
  match f with
  | Some e => lanca e
  | None => retorna tt
  end.

(** ** scraper.js *)

Definition CONFIG_BASE_URL : string := "https://www.reclameaqui.com.br".
Definition CONFIG_MAX_RECLAMACOES : nat := 20.

(** [axios.get(urlBusca, ...)]: the next answer of the network.  The slug
    and the URL built from [nomeEmpresa] only select which page upstream
    serves; that page, or the failure, is the head of [rede].  When the
    environment has no answer left the request times out, which axios
    reports as a rejected request without response. *)
Definition erro_timeout : JsErro :=
  {| message := "timeout of 10000ms exceeded"; code := Some "ECONNABORTED";
     response := None; request := true |}.

Definition axios_get : Efeito (list Card) :=
  λ m, match rede m with
       | [] => (m, Excecao erro_timeout)
       | Resolve cards :: r => (com_rede r m, Retorno cards)
       | Reject e :: r => (com_rede r m, Excecao e)
       end.

(** [$(sel).each(callback)]: calls [callback] on the selected nodes in
    order, until one call returns [false].  The array the callback pushes
    to is threaded through as [acc]. *)
Fixpoint each {A B : Type} (callback : nat → A → B → Efeito (B * bool))
    (index : nat) (nos : list A) (acc : B) : Efeito B :=
  match nos with
  | [] => retorna acc
  | elemento :: resto =>
      seja r := callback index elemento acc em
      if r.2 then each callback (S index) resto r.1 else retorna r.1
  end.

(** [item.find('a').attr('href')?.split('/').pop() || null] *)
Definition id_do_href (h : option string) : option string :=
  match h with
  | None => None
  | Some u => let seg := ultimo_segmento u in
              if truthy seg then Some seg else None
  end.

(** The callback of [buscarReclamacoes]; the second component of the result
    is [false] for [return false]. *)
Definition extrai_card (nomeEmpresa : string) (index : nat) (item : Card)
    (reclamacoes : list Reclamacao) : Efeito (list Reclamacao * bool) :=
  if bool_decide (CONFIG_MAX_RECLAMACOES ≤ index)%nat
  then retorna (reclamacoes, false)
  else
    let titulo := trim (texto_titulo item) in
    let descricao := trim (texto_descricao item) in
    let status := trim (texto_status item) in
    let data := trim (texto_data item) in
    let local := trim (texto_local item) in
    let id := id_do_href (href item) in
    if truthy titulo then
      seja d := (if truthy data then retorna (DataTexto data)
                 else seja t := new_Date em retorna (DataISO t)) em
      seja agora := new_Date em
      retorna
        ((reclamacoes ++
           [ {| id := id;
                titulo := titulo;
                descricao := ou descricao "Sem descrição";
                status := ou status "Não informado";
                data := d;
                local := ou local "Não informado";
                empresa := nomeEmpresa;
                link := (λ i, CONFIG_BASE_URL +:+ "/reclamacao/" +:+ i) <$> id;
                coletadoEm := agora |} ])%list,
         true)
    else retorna (reclamacoes, true).

(** The three errors the [catch] block of [buscarReclamacoes] creates. *)
Definition erro_nao_encontrada : JsErro :=
  novo_Error "Empresa não encontrada no Reclame Aqui".
Definition erro_bloqueado : JsErro :=
  novo_Error "Acesso bloqueado pelo Reclame Aqui".
Definition erro_sem_resposta : JsErro :=
  novo_Error "Sem resposta do servidor".

(** The [catch] block of [buscarReclamacoes]. *)
Definition trata_erro_busca {A} (erro : JsErro) : Efeito A :=
  console_error (RegMensagem "❌ Erro ao buscar reclamações:" (message erro));;;
  match response erro with
  | Some st =>
      console_error (RegTexto ("Status: " +:+ pretty st));;;
      if bool_decide (st = 404)
      then lanca erro_nao_encontrada
      else if bool_decide (st = 403)
      then lanca erro_bloqueado
      else lanca erro
  | None =>
      if request erro
      then lanca erro_sem_resposta
      else lanca erro
  end.

Definition buscarReclamacoes (nomeEmpresa : string) : Efeito (list Reclamacao) :=
  tenta
    (seja cards := axios_get em
     each (extrai_card nomeEmpresa) 0 cards [])
    trata_erro_busca.

(** ** database.js *)

(** *** The statements, as functions of the tables *)

(** [client.query(stmt)]: the engine refuses, or runs the statement. *)
Definition client_query {A} (stmt : Banco → Banco * Resultado A) : Efeito A :=
  seja f := proxima_falha em
  match f with
  | Some e => lanca e
  | None => λ m, let r := stmt (banco m) in (com_banco r.1 m, r.2)
  end.

(** The parameters [$1 .. $9] of the INSERT. *)
Definition linha_de (r : Reclamacao) : LinhaReclamacao :=
  {| id_externo := id r;
     col_empresa := empresa r;
     col_titulo := titulo r;
     col_descricao := descricao r;
     col_status := status r;
     col_data := data r;
     col_local := local r;
     col_link := link r;
     coletado_em := coletadoEm r |}.

(** Two rows collide on [UNIQUE(id_externo, empresa)]: both components are
    equal, and [id_externo] is not NULL (NULLs are distinct in a unique
    index). *)
Definition mesma_chave (a b : LinhaReclamacao) : bool :=
  match id_externo a, id_externo b with
  | Some x, Some y =>
      bool_decide (x = y) && bool_decide (col_empresa a = col_empresa b)
  | _, _ => false
  end.

Definition conflita (l : LinhaReclamacao) (t : list LinhaReclamacao) : bool :=
  existsb (mesma_chave l) t.

(** [INSERT INTO reclamacoes ... ON CONFLICT (id_externo, empresa) DO
    NOTHING]; the result is [rowCount]. *)
Definition sql_insert_reclamacao (l : LinhaReclamacao) (b : Banco)
    : Banco * Resultado nat :=
  if conflita l (reclamacoes b)
  then (b, Retorno 0%nat)
  else (com_reclamacoes (reclamacoes b ++ [l])%list b, Retorno 1%nat).

(** [ORDER BY coletado_em DESC].  Among rows collected at the same instant
    the engine promises no order; [merge_sort] returns them in one order,
    and the statements below say nothing that depends on which. *)
Definition mais_recente (a b : LinhaReclamacao) : Prop :=
  coletado_em b ≤ coletado_em a.

#[global] Instance mais_recente_dec : RelDecision mais_recente.
Proof. intros a b. unfold mais_recente. apply _. Defined.

Definition erro_limite_negativo : JsErro :=
  {| message := "LIMIT must not be negative"; code := Some "2201W";
     response := None; request := false |}.

(** [SELECT * FROM reclamacoes WHERE empresa = $1 ORDER BY coletado_em DESC
    LIMIT $2] *)
Definition sql_select_por_empresa (emp : string) (limite : Z) (b : Banco)
    : Banco * Resultado (list LinhaReclamacao) :=
  if bool_decide (limite < 0)
  then (b, Excecao erro_limite_negativo)
  else (b, Retorno
             (take (Z.to_nat limite)
                (merge_sort mais_recente
                   (filter (λ l, col_empresa l = emp) (reclamacoes b))))).

(** [INSERT INTO configuracoes (empresa, intervalo, ativo) VALUES ($1, $2,
    true) ON CONFLICT (empresa) DO UPDATE SET intervalo = $2, ativo = true,
    atualizado_em = CURRENT_TIMESTAMP] *)
Definition atualiza_config (emp itv : string) (agora : Z) (c : LinhaConfig)
    : LinhaConfig :=
  if bool_decide (cfg_empresa c = emp)
  then {| cfg_empresa := cfg_empresa c; cfg_intervalo := itv; ativo := true;
          criado_em := criado_em c; atualizado_em := agora |}
  else c.

Definition sql_upsert_configuracao (emp itv : string) (b : Banco)
    : Banco * Resultado unit :=
  let agora := current_timestamp b in
  if existsb (λ c, bool_decide (cfg_empresa c = emp)) (configuracoes b)
  then (com_configuracoes (atualiza_config emp itv agora <$> configuracoes b) b,
        Retorno tt)
  else (com_configuracoes
          (configuracoes b ++
             [ {| cfg_empresa := emp; cfg_intervalo := itv; ativo := true;
                  criado_em := agora; atualizado_em := agora |} ])%list b,
        Retorno tt).

(** [UPDATE configuracoes SET ativo = false, atualizado_em =
    CURRENT_TIMESTAMP WHERE empresa = $1] *)
Definition desativa_config (emp : string) (agora : Z) (c : LinhaConfig)
    : LinhaConfig :=
  if bool_decide (cfg_empresa c = emp)
  then {| cfg_empresa := cfg_empresa c; cfg_intervalo := cfg_intervalo c;
          ativo := false; criado_em := criado_em c; atualizado_em := agora |}
  else c.

Definition sql_desativar (emp : string) (b : Banco) : Banco * Resultado unit :=
  (com_configuracoes
     (desativa_config emp (current_timestamp b) <$> configuracoes b) b,
   Retorno tt).

(** *** The exported functions *)

Record Contagem := { salvos : nat; duplicados : nat }.

(** One turn of the [for ... of] loop of [salvarReclamacoesDB], with its
    inner [try]/[catch]. *)
Definition salva_uma (reclamacao : Reclamacao) (c : Contagem) : Efeito Contagem :=
  tenta
    (client_query (sql_insert_reclamacao (linha_de reclamacao));;;
     retorna {| salvos := S (salvos c); duplicados := duplicados c |})
    (λ erro,
       if bool_decide (code erro = Some "23505")
       then retorna {| salvos := salvos c; duplicados := S (duplicados c) |}
       else
         console_error
           (RegMensagem "❌ Erro ao salvar reclamação:" (message erro));;;
         retorna c).

Fixpoint laco_salvar (reclamacoes : list Reclamacao) (c : Contagem)
    : Efeito Contagem :=
  match reclamacoes with
  | [] => retorna c
  | reclamacao :: resto =>
      seja c' := salva_uma reclamacao c em laco_salvar resto c'
  end.

Definition salvarReclamacoesDB (reclamacoes : list Reclamacao) : Efeito Contagem :=
  pool_connect;;;
  tenta
    (laco_salvar reclamacoes {| salvos := 0; duplicados := 0 |})
    (λ erro,
       console_error (RegErro "❌ Erro ao salvar reclamações:" erro);;;
       lanca erro).

(** [limite = 50] is the default of the parameter: [None] stands for a call
    without it. *)
Definition buscarReclamacoesDB (emp : string) (limite : option Z)
    : Efeito (list LinhaReclamacao) :=
  let limite := default 50 limite in
  pool_connect;;;
  tenta
    (client_query (sql_select_por_empresa emp limite))
    (λ erro,
       console_error (RegErro "❌ Erro ao buscar reclamações:" erro);;;
       lanca erro).

Definition salvarConfiguracao (emp itv : string) : Efeito unit :=
  pool_connect;;;
  tenta
    (client_query (sql_upsert_configuracao emp itv))
    (λ erro,
       console_error (RegErro "❌ Erro ao salvar configuração:" erro);;;
       lanca erro).

Definition desativarMonitoramento (emp : string) : Efeito unit :=
  pool_connect;;;
  tenta
    (client_query (sql_desativar emp))
    (λ erro,
       console_error (RegErro "❌ Erro ao desativar monitoramento:" erro);;;
       lanca erro).

(** ** scheduler.js *)

(** A value read out of the [conversoes] object. *)
Inductive Valor :=
  | VString (s : string)
  | VObjeto (nome : string)
  | VUndefined.

#[global] Instance Valor_eq_dec : EqDecision Valor.
Proof. solve_decision. Defined.

(** The own properties of the object literal [conversoes]. *)
Definition conversoes : list (string * string) :=
  [ ("10min", "*/10 * * * *");
    ("30min", "*/30 * * * *");
    ("1h", "0 * * * *");
    ("3h", "0 */3 * * *");
    ("6h", "0 */6 * * *");
    ("12h", "0 */12 * * *");
    ("diario", "0 9 * * *");
    ("1d", "0 9 * * *");
    ("semanal", "0 9 * * 1");
    ("1w", "0 9 * * 1") ].

(** The properties an object literal inherits from [Object.prototype]:
    functions, and for [__proto__] the prototype object itself. *)
Definition Object_prototype : list string :=
  [ "constructor"; "__defineGetter__"; "__defineSetter__"; "hasOwnProperty";
    "__lookupGetter__"; "__lookupSetter__"; "isPrototypeOf";
    "propertyIsEnumerable"; "toString"; "valueOf"; "__proto__";
    "toLocaleString" ].

Definition propria (chave : string) : option string :=
  snd <$> find (λ p, bool_decide (p.1 = chave)) conversoes.

(** [conversoes[chave]]: an own property, else one found along the
    prototype chain, else [undefined]. *)
Definition conversoes_get (chave : string) : Valor :=
  match propria chave with
  | Some s => VString s
  | None =>
      if bool_decide (chave ∈ Object_prototype)
      then VObjeto chave
      else VUndefined
  end.

Definition valor_truthy (v : Valor) : bool :=
  match v with
  | VString s => truthy s
  | VObjeto _ => true
  | VUndefined => false
  end.

Definition intervalParaCron (intervalo : string) : Valor :=
  let v := conversoes_get (toLowerCase intervalo) in
  if valor_truthy v then v else conversoes_get "1h".

(** [executarMonitoramento]: one fetch-and-persist cycle. *)
Definition executarMonitoramento (emp : string) : Efeito unit :=
  tenta
    (seja reclamacoes := buscarReclamacoes emp em
     if bool_decide (length reclamacoes = 0%nat)
     then retorna tt
     else salvarReclamacoesDB reclamacoes;;; retorna tt)
    (λ erro,
       console_error
         (RegMensagem ("❌ Erro no monitoramento de " +:+ emp +:+ ":")
            (message erro))).

(** [executarMonitoramento(empresa)] called without [await]: the cycle is
    launched and the caller goes on; it completes when the network answers.
    The launch is recorded in [ciclos]. *)
Definition dispara_ciclo (emp : string) : Efeito unit :=
  λ m, (com_ciclos (ciclos m ++ [emp])%list m, Retorno tt).

(** [cron.schedule(expressaoCron, ..., { scheduled: true, ... })]: node-cron
    validates the pattern, which every string of [conversoes] passes and a
    value that is not a string fails, then registers a running task; the
    handle returned is the position of that task. *)
Definition erro_padrao_cron : JsErro := novo_Error "pattern must be a string!".

Definition cron_schedule (expressaoCron : Valor) (emp : string) : Efeito nat :=
  match expressaoCron with
  | VString s =>
      λ m, (com_tarefas
              (tarefas m ++
                 [ {| expressao := s; alvo := emp; rodando := true |} ])%list m,
            Retorno (length (tarefas m)))
  | _ => lanca erro_padrao_cron
  end.

(** [jobInfo.job.stop()] *)
Definition para_tarefa (t : TarefaCron) : TarefaCron :=
  {| expressao := expressao t; alvo := alvo t; rodando := false |}.

Definition job_stop (j : nat) : Efeito unit :=
  λ m, (com_tarefas (alter para_tarefa j (tarefas m)) m, Retorno tt).

Definition pararMonitoramento (emp : string) : Efeito bool :=
  tenta
    (λ m,
       match jobsAtivos m !! emp with
       | Some jobInfo =>
           (job_stop (job jobInfo);;;
            (λ m', (com_jobsAtivos (delete emp (jobsAtivos m')) m', Retorno tt));;;
            retorna true) m
       | None => retorna false m
       end)
    (λ erro,
       console_error (RegMensagem "❌ Erro ao parar monitoramento:" (message erro));;;
       lanca erro).

Definition iniciarMonitoramento (emp itv : string) : Efeito bool :=
  tenta
    (pararMonitoramento emp;;;
     let expressaoCron := intervalParaCron itv in
     dispara_ciclo emp;;;
     seja j := cron_schedule expressaoCron emp em
     seja agora := new_Date em
     (λ m, (com_jobsAtivos
              (<[emp := {| job := j; intervalo := itv; iniciado := agora |}]>
                 (jobsAtivos m)) m,
            Retorno tt));;;
     retorna true)
    (λ erro,
       console_error
         (RegMensagem ("❌ Erro ao iniciar monitoramento para " +:+ emp +:+ ":")
            (message erro));;;
       lanca erro).

(** ** server.js *)

Inductive Corpo :=
  | CorpoErro (erro : string) (detalhes : option string)
  | CorpoMensagem (mensagem : string) (itv : option string)
  | CorpoReclamacoes (emp : string) (total : nat)
      (linhas : list LinhaReclamacao).

(** [res.status(n).json(corpo)]; [res.json] alone answers 200. *)
Record Resposta := { status_http : Z; corpo : Corpo }.

(** [!campo] for a field of [req.body] that is a string or is missing. *)
Definition ausente (campo : option string) : bool :=
  match campo with
  | Some s => negb (truthy s)
  | None => true
  end.

(** The answers of POST /api/monitoramento/iniciar. *)
Definition resposta_campos_obrigatorios : Resposta :=
  {| status_http := 400;
     corpo := CorpoErro "Empresa e intervalo são obrigatórios" None |}.

Definition resposta_iniciado (emp itv : string) : Resposta :=
  {| status_http := 200;
     corpo := CorpoMensagem ("Monitoramento iniciado para " +:+ emp) (Some itv) |}.

Definition resposta_erro_iniciar (erro : JsErro) : Resposta :=
  {| status_http := 500;
     corpo := CorpoErro "Erro ao iniciar monitoramento" (Some (message erro)) |}.

(** POST /api/monitoramento/iniciar *)
Definition post_monitoramento_iniciar (body_empresa body_intervalo : option string)
    : Efeito Resposta :=
  tenta
    (if ausente body_empresa || ausente body_intervalo
     then retorna resposta_campos_obrigatorios
     else
       let emp := default "" body_empresa in
       let itv := default "" body_intervalo in
       salvarConfiguracao emp itv;;;
       iniciarMonitoramento emp itv;;;
       retorna (resposta_iniciado emp itv))
    (λ erro,
       console_error (RegErro "Erro ao iniciar monitoramento:" erro);;;
       retorna (resposta_erro_iniciar erro)).

(** POST /api/monitoramento/parar *)
Definition post_monitoramento_parar (body_empresa : option string)
    : Efeito Resposta :=
  tenta
    (if ausente body_empresa
     then retorna {| status_http := 400;
                     corpo := CorpoErro "Nome da empresa é obrigatório" None |}
     else
       let emp := default "" body_empresa in
       pararMonitoramento emp;;;
       retorna {| status_http := 200;
                  corpo := CorpoMensagem ("Monitoramento parado para " +:+ emp)
                             None |})
    (λ erro,
       console_error (RegErro "Erro ao parar monitoramento:" erro);;;
       retorna {| status_http := 500;
                  corpo := CorpoErro "Erro ao parar monitoramento"
                             (Some (message erro)) |}).

(** [parseInt(req.query.limite) || 50]; the argument is what [parseInt]
    gives, [None] for [NaN]. *)
Definition limite_da_query (parseado : option Z) : Z :=
  match parseado with
  | Some n => if bool_decide (n = 0) then 50 else n
  | None => 50
  end.

(** GET /api/reclamacoes/:empresa *)
Definition get_reclamacoes (emp : string) (query_limite : option Z)
    : Efeito Resposta :=
  tenta
    (let limite := limite_da_query query_limite in
     seja linhas := buscarReclamacoesDB emp (Some limite) em
     retorna {| status_http := 200;
                corpo := CorpoReclamacoes emp (length linhas) linhas |})
    (λ erro,
       console_error (RegErro "Erro ao buscar reclamações:" erro);;;
       retorna {| status_http := 500;
                  corpo := CorpoErro "Erro ao buscar reclamações"
                             (Some (message erro)) |}).

(** ** database.js, the other queries *)

(** The object [filtros].  A text is missing ([None]) or given; the bounds
    [dataInicio] and [dataFim] are ISO renderings of instants, as
    [coletadoEm] is. *)
Record Filtros := {
  filtro_empresa : option string;
  filtro_status : option string;
  dataInicio : option Z;
  dataFim : option Z;
  filtro_limite : option Z
}.

(** [{}], the default of the parameter [filtros]. *)
Definition sem_filtros : Filtros :=
  {| filtro_empresa := None; filtro_status := None; dataInicio := None;
     dataFim := None; filtro_limite := None |}.

(** [if (filtros.empresa)], [if (filtros.status)]: a missing text and the
    empty text add no condition. *)
Definition filtro_texto (o : option string) : option string :=
  match o with
  | Some s => if truthy s then Some s else None
  | None => None
  end.

(** [if (filtros.limite)]: a missing limit and 0 add no LIMIT. *)
Definition filtro_numero (o : option Z) : option Z :=
  match o with
  | Some n => if bool_decide (n = 0) then None else Some n
  | None => None
  end.

(** The WHERE clause [buscarTodasReclamacoes] builds: [1=1] and one
    condition for each filter that is given. *)
Definition satisfaz (f : Filtros) (l : LinhaReclamacao) : bool :=
  match filtro_texto (filtro_empresa f) with
  | Some e => bool_decide (col_empresa l = e)
  | None => true
  end
  && match filtro_texto (filtro_status f) with
     | Some st => bool_decide (col_status l = st)
     | None => true
     end
  && match dataInicio f with
     | Some t => bool_decide (t ≤ coletado_em l)
     | None => true
     end
  && match dataFim f with
     | Some t => bool_decide (coletado_em l ≤ t)
     | None => true
     end.

(** [SELECT * FROM reclamacoes WHERE 1=1 ... ORDER BY coletado_em DESC],
    followed by [LIMIT $n] when a limit is given. *)
Definition sql_select_filtrado (f : Filtros) (b : Banco)
    : Banco * Resultado (list LinhaReclamacao) :=
  let linhas :=
    merge_sort mais_recente (filter (λ l, satisfaz f l = true) (reclamacoes b)) in
  match filtro_numero (filtro_limite f) with
  | None => (b, Retorno linhas)
  | Some n =>
      if bool_decide (n < 0)
      then (b, Excecao erro_limite_negativo)
      else (b, Retorno (take (Z.to_nat n) linhas))
  end.

Definition buscarTodasReclamacoes (filtros : Filtros)
    : Efeito (list LinhaReclamacao) :=
  pool_connect;;;
  tenta
    (client_query (sql_select_filtrado filtros))
    (λ erro,
       console_error (RegErro "❌ Erro ao buscar todas as reclamações:" erro);;;
       lanca erro).

(** [ORDER BY criado_em DESC] *)
Definition mais_nova (a b : LinhaConfig) : Prop := criado_em b ≤ criado_em a.

#[global] Instance mais_nova_dec : RelDecision mais_nova.
Proof. intros a b. unfold mais_nova. apply _. Defined.

(** [SELECT * FROM configuracoes], with [WHERE ativo = true] when
    [apenasAtivos], [ORDER BY criado_em DESC]. *)
Definition sql_select_configuracoes (apenasAtivos : bool) (b : Banco)
    : Banco * Resultado (list LinhaConfig) :=
  (b, Retorno
        (merge_sort mais_nova
           (if apenasAtivos
            then filter (λ c, ativo c = true) (configuracoes b)
            else configuracoes b))).

(** [apenasAtivos = true] is the default of the parameter: [None] stands
    for a call without it. *)
Definition obterConfiguracoes (apenasAtivos : option bool)
    : Efeito (list LinhaConfig) :=
  let apenasAtivos := default true apenasAtivos in
  pool_connect;;;
  tenta
    (client_query (sql_select_configuracoes apenasAtivos))
    (λ erro,
       console_error (RegErro "❌ Erro ao obter configurações:" erro);;;
       lanca erro).

(** ** scheduler.js, the other functions *)

(** [pararTodos]: [jobInfo.job.stop()] for every entry, then
    [jobsAtivos.clear()].  Stopping a task changes that task alone, so the
    order in which [forEach] visits the entries does not show. *)
Definition pararTodos : Efeito unit :=
  λ m, (com_jobsAtivos ∅
          (com_tarefas
             (foldr (λ entrada t, alter para_tarefa (job entrada.2) t)
                (tarefas m) (map_to_list (jobsAtivos m)))
             m),
        Retorno tt).

(** The object [statusMonitoramento] returns; [intervalo] and [iniciado]
    are present for an active company only. *)
Record Status := {
  sm_empresa : string;
  sm_ativo : bool;
  sm_intervalo : option string;
  sm_iniciado : option Z
}.

Definition statusMonitoramento (emp : string) (m : Mundo) : Status :=
  match jobsAtivos m !! emp with
  | Some jobInfo =>
      {| sm_empresa := emp; sm_ativo := true;
         sm_intervalo := Some (intervalo jobInfo);
         sm_iniciado := Some (iniciado jobInfo) |}
  | None =>
      {| sm_empresa := emp; sm_ativo := false;
         sm_intervalo := None; sm_iniciado := None |}
  end.

(** ** server.js, the other routes *)

(** The answers of GET /api/monitoramento/lista and GET
    /api/buscar/:empresa. *)
Inductive CorpoLista :=
  | ListaSucesso (total : nat) (monitoramentos : list LinhaConfig)
  | ListaErro (erro : string) (detalhes : string).

Record RespostaLista := { lista_status : Z; lista_corpo : CorpoLista }.

Inductive CorpoBusca :=
  | BuscaSucesso (emp : string) (total : nat) (recl : list Reclamacao)
  | BuscaErro (erro : string) (detalhes : string).

Record RespostaBusca := { busca_status : Z; busca_corpo : CorpoBusca }.

(** GET /api/monitoramento/lista *)
Definition get_monitoramento_lista : Efeito RespostaLista :=
  tenta
    (seja configuracoes := obterConfiguracoes None em
     retorna {| lista_status := 200;
                lista_corpo :=
                  ListaSucesso (length configuracoes) configuracoes |})
    (λ erro,
       console_error (RegErro "Erro ao listar monitoramentos:" erro);;;
       retorna {| lista_status := 500;
                  lista_corpo :=
                    ListaErro "Erro ao listar monitoramentos" (message erro) |}).

(** GET /api/buscar/:empresa *)
Definition get_buscar (emp : string) : Efeito RespostaBusca :=
  tenta
    (seja reclamacoes := buscarReclamacoes emp em
     retorna {| busca_status := 200;
                busca_corpo :=
                  BuscaSucesso emp (length reclamacoes) reclamacoes |})
    (λ erro,
       console_error (RegErro "Erro na busca manual:" erro);;;
       retorna {| busca_status := 500;
                  busca_corpo :=
                    BuscaErro "Erro na busca manual" (message erro) |}).

(** ** Vocabulary of the statements *)

(** The cases of [trimStart]: the text it goes on with, or the text it
    stops at. *)
Inductive caso_trimStart : string → string → Prop :=
  | caso_vazio : caso_trimStart "" ""
  | caso_ws1 a s : ws1 a = true → caso_trimStart (String a s) s
  | caso_ws2 a b s :
      ws1 a = false → ws2 a b = true →
      caso_trimStart (String a (String b s)) s
  | caso_ws3 a b c s :
      ws1 a = false → ws2 a b = false → ws3 a b c = true →
      caso_trimStart (String a (String b (String c s))) s
  | caso_fim s : s ≠ "" → trimStart s = s → caso_trimStart s s.

(** The card keeps its title once trimmed. *)
Definition tem_titulo (c : Card) : Prop := trim (texto_titulo c) ≠ "".

#[global] Instance tem_titulo_dec c : Decision (tem_titulo c).
Proof. unfold tem_titulo. apply _. Defined.

(** The record [r] is the one made from card [c] for company
    [nomeEmpresa]: trimmed texts, and the default of each missing field. *)
Record registro_de (nomeEmpresa : string) (c : Card) (r : Reclamacao) : Prop := {
  rd_titulo : titulo r = trim (texto_titulo c);
  rd_descricao :
    descricao r = if decide (trim (texto_descricao c) = "")
                  then "Sem descrição" else trim (texto_descricao c);
  rd_status :
    status r = if decide (trim (texto_status c) = "")
               then "Não informado" else trim (texto_status c);
  rd_data :
    if decide (trim (texto_data c) = "")
    then ∃ t, data r = DataISO t
    else data r = DataTexto (trim (texto_data c));
  rd_local :
    local r = if decide (trim (texto_local c) = "")
              then "Não informado" else trim (texto_local c);
  rd_empresa : empresa r = nomeEmpresa
}.

(** The world once the engine has given its verdict on an operation. *)
Definition avanca (m : Mundo) : Mundo := (proxima_falha m).1.

(** The engine refuses none of the next [k] operations. *)
Definition sem_falhas (k : nat) (m : Mundo) : Prop :=
  Forall (λ f, f = None) (take k (falhas (banco m))).

#[global] Instance sem_falhas_dec k m : Decision (sem_falhas k m).
Proof. unfold sem_falhas. apply _. Defined.

(** The record carries an external identifier. *)
Definition identificada (r : Reclamacao) : Prop := is_Some (id r).

#[global] Instance identificada_dec r : Decision (identificada r).
Proof. unfold identificada. apply _. Defined.

(** The rows stored once [lote] has been saved from [m]. *)
Definition linhas_apos (lote : list Reclamacao) (m : Mundo)
    : list LinhaReclamacao :=
  reclamacoes (banco (salvarReclamacoesDB lote m).1).

(** Only the clock was read between [m] and [m']. *)
Definition so_relogio (m m' : Mundo) : Prop := m' = com_relogio (relogio m') m.

(** A process that has just started, facing an empty database. *)
Definition banco_vazio : Banco :=
  {| reclamacoes := []; configuracoes := []; current_timestamp := 0;
     falhas := [] |}.

Definition mundo_vazio : Mundo :=
  {| banco := banco_vazio; jobsAtivos := ∅; tarefas := []; ciclos := [];
     console := []; relogio := []; rede := [] |}.

(** A process that has just started, facing a database that holds the
    complaint rows [t]. *)
Definition mundo_com_linhas (t : list LinhaReclamacao) : Mundo :=
  com_banco (com_reclamacoes t banco_vazio) mundo_vazio.

(** Saving [lote] a second time, in any order, leaves the rows as the first
    time left them. *)
Definition reaplicacao_inerte (lote : list Reclamacao) (m : Mundo) : Prop :=
  ∀ lote', lote' ≡ₚ lote →
    linhas_apos lote' (salvarReclamacoesDB lote m).1 = linhas_apos lote m.

(** The rows of the records of [lote] that carry no external identifier, in
    the order of the batch. *)
Definition linhas_sem_id (lote : list Reclamacao) : list LinhaReclamacao :=
  linha_de <$> filter (λ r, id r = None) lote.

(** Two complaints of company Acme, with and without the anchor the
    identifier is read from, and one of another company. *)
Definition reclamacao_exemplo : Reclamacao :=
  {| id := Some "123456";
     titulo := "Produto não entregue";
     descricao := "Sem descrição";
     status := "Não respondida";
     data := DataTexto "02/11/2026";
     local := "São Paulo - SP";
     empresa := "Acme";
     link := Some "https://www.reclameaqui.com.br/reclamacao/123456";
     coletadoEm := 1000 |}.

Definition reclamacao_sem_id : Reclamacao :=
  {| id := None;
     titulo := "Cobrança indevida";
     descricao := "Sem descrição";
     status := "Não informado";
     data := DataISO 2000;
     local := "Não informado";
     empresa := "Acme";
     link := None;
     coletadoEm := 2000 |}.

Definition reclamacao_outra : Reclamacao :=
  {| id := Some "777";
     titulo := "Atendimento ruim";
     descricao := "Ninguém responde";
     status := "Respondida";
     data := DataTexto "01/11/2026";
     local := "Recife - PE";
     empresa := "Globex";
     link := Some "https://www.reclameaqui.com.br/reclamacao/777";
     coletadoEm := 3000 |}.

(** A failure of the engine that is not a unique violation. *)
Definition erro_conexao : JsErro :=
  {| message := "Connection terminated unexpectedly"; code := None;
     response := None; request := false |}.

Definition com_falhas_no_mundo (f : list (option JsErro)) (m : Mundo) : Mundo :=
  com_banco (com_falhas f (banco m)) m.

(** The ledger holds an active row for [emp] with interval [itv]. *)
Definition registrado (emp itv : string) (b : Banco) : Prop :=
  ∃ c, c ∈ configuracoes b
       ∧ cfg_empresa c = emp ∧ cfg_intervalo c = itv ∧ ativo c = true.

(** The registry and node-cron agree: every entry of [jobsAtivos] points
    to a running task of its company, and every running task is the one
    the entry of its company points to. *)
Definition registro_coerente (m : Mundo) : Prop :=
  (∀ e jobInfo, jobsAtivos m !! e = Some jobInfo →
     ∃ t, tarefas m !! job jobInfo = Some t ∧ alvo t = e ∧ rodando t = true)
  ∧ (∀ i t, tarefas m !! i = Some t → rodando t = true →
       ∃ jobInfo, jobsAtivos m !! alvo t = Some jobInfo ∧ job jobInfo = i).

(** [empresa VARCHAR(255) UNIQUE]: the ledger has one row for a company. *)
Definition uma_linha_por_empresa (b : Banco) : Prop :=
  NoDup (cfg_empresa <$> configuracoes b).

(** [UNIQUE(id_externo, empresa)]: no two rows share a key. *)
Definition chaves_unicas (t : list LinhaReclamacao) : Prop :=
  ∀ i j a b, t !! i = Some a → t !! j = Some b → mesma_chave a b = true → i = j.

(** The row meets every filter that is given: a company and a status
    that are not the empty text, and the two bounds on [coletado_em], which
    are inclusive. *)
Definition atende (f : Filtros) (l : LinhaReclamacao) : Prop :=
  match filtro_empresa f with
  | Some e => e ≠ "" → col_empresa l = e
  | None => True
  end
  ∧ match filtro_status f with
    | Some s => s ≠ "" → col_status l = s
    | None => True
    end
  ∧ match dataInicio f with
    | Some t => t ≤ coletado_em l
    | None => True
    end
  ∧ match dataFim f with
    | Some t => coletado_em l ≤ t
    | None => True
    end.

#[global] Instance atende_dec f l : Decision (atende f l).
Proof.
  unfold atende.
  destruct (filtro_empresa f), (filtro_status f), (dataInicio f), (dataFim f);
    apply _.
Defined.

(** No two stored rows of company [emp] were collected at the same instant:
    [ORDER BY coletado_em] then leaves the engine no choice among them. *)
Definition tempos_distintos (emp : string) (b : Banco) : Prop :=
  NoDup (coletado_em <$> filter (λ l, col_empresa l = emp) (reclamacoes b)).

#[global] Instance tempos_distintos_dec emp b : Decision (tempos_distintos emp b).
Proof. unfold tempos_distintos. apply _. Defined.

(** Nothing but the database and the console differs between [m] and
    [m']. *)
Definition so_banco_e_console (m m' : Mundo) : Prop :=
  m' = com_console (console m') (com_banco (banco m') m).

(** A running task of company [emp]. *)
Definition rodando_para (emp : string) (t : TarefaCron) : Prop :=
  alvo t = emp ∧ rodando t = true.

#[global] Instance rodando_para_dec emp t : Decision (rodando_para emp t).
Proof. unfold rodando_para. apply _. Defined.

(** Neither the database nor the scheduler differs between [m] and [m']. *)
Definition intocado (m m' : Mundo) : Prop :=
  banco m' = banco m
  ∧ jobsAtivos m' = jobsAtivos m
  ∧ tarefas m' = tarefas m
  ∧ ciclos m' = ciclos m.

(** A page of three cards: one complete, one whose title is blank, one
    with a title and nothing else. *)
Definition pagina_exemplo : list Card :=
  [ {| texto_titulo := " Produto não entregue ";
       texto_descricao := "Comprei e não chegou";
       texto_status := "Não respondida";
       texto_data := "02/11/2026";
       texto_local := "São Paulo - SP";
       href := Some "/acme/produto-nao-entregue_123456" |};
    {| texto_titulo := "   ";
       texto_descricao := "texto";
       texto_status := "Respondida";
       texto_data := "01/11/2026";
       texto_local := "Recife - PE";
       href := Some "/acme/sem-titulo_1" |};
    {| texto_titulo := "Cobrança indevida";
       texto_descricao := "";
       texto_status := "";
       texto_data := "";
       texto_local := "";
       href := None |} ].

(** * Properties *)

(** ** Trimming *)

Section Trim.

Lemma str_app_cons a x y : String a x +:+ y = String a (x +:+ y).
Proof. reflexivity. Qed.

Lemma str_app_nil y : "" +:+ y = y.
Proof. reflexivity. Qed.

(** The equations of [trimStart]. *)
Lemma trimStart_ws1 a s : ws1 a = true → trimStart (String a s) = trimStart s.
Proof. intros E. cbn [trimStart]. by rewrite E. Qed.

Lemma trimStart_ws2 a b s :
  ws1 a = false → ws2 a b = true →
  trimStart (String a (String b s)) = trimStart s.
Proof. intros E1 E2. cbn [trimStart]. by rewrite E1, E2. Qed.

Lemma trimStart_ws3 a b c s :
  ws1 a = false → ws2 a b = false → ws3 a b c = true →
  trimStart (String a (String b (String c s))) = trimStart s.
Proof. intros E1 E2 E3. cbn [trimStart]. by rewrite E1, E2, E3. Qed.

Lemma trimStart_fim1 a : ws1 a = false → trimStart (String a "") = String a "".
Proof. intros E. cbn [trimStart]. by rewrite E. Qed.

Lemma trimStart_fim2 a b :
  ws1 a = false → ws2 a b = false →
  trimStart (String a (String b "")) = String a (String b "").
Proof. intros E1 E2. cbn [trimStart]. by rewrite E1, E2. Qed.

Lemma trimStart_fim3 a b c s :
  ws1 a = false → ws2 a b = false → ws3 a b c = false →
  trimStart (String a (String b (String c s)))
  = String a (String b (String c s)).
Proof. intros E1 E2 E3. cbn [trimStart]. by rewrite E1, E2, E3. Qed.

(** [trimStart s] either stops at [s] or goes on with a proper suffix. *)
Lemma trimStart_caso s :
  ∃ r, caso_trimStart s r ∧ trimStart s = trimStart r
       ∧ (r = s ∨ (String.length r < String.length s)%nat).
Proof.
  destruct s as [|a s1].
  { exists "". split; [constructor|]. auto. }
  destruct (ws1 a) eqn:E1.
  { exists s1. split; [by constructor|]. split; [by apply trimStart_ws1|].
    right. simpl. lia. }
  destruct s1 as [|b s2].
  { exists (String a ""). pose proof (trimStart_fim1 a E1) as F.
    split; [by constructor|]. split; [by rewrite F|]. by left. }
  destruct (ws2 a b) eqn:E2.
  { exists s2. split; [by constructor|]. split; [by apply trimStart_ws2|].
    right. simpl. lia. }
  destruct s2 as [|c s3].
  { exists (String a (String b "")). pose proof (trimStart_fim2 a b E1 E2) as F.
    split; [by constructor|]. split; [by rewrite F|]. by left. }
  destruct (ws3 a b c) eqn:E3.
  { exists s3. split; [by constructor|]. split; [by apply trimStart_ws3|].
    right. simpl. lia. }
  exists (String a (String b (String c s3))).
  pose proof (trimStart_fim3 a b c s3 E1 E2 E3) as F.
  split; [by constructor|]. split; [by rewrite F|]. by left.
Qed.

Lemma caso_parado s r :
  caso_trimStart s r → String.length r = String.length s → trimStart s = s.
Proof. destruct 1; simpl; intros; try lia; done. Qed.

Lemma trimStart_length s : (String.length (trimStart s) ≤ String.length s)%nat.
Proof.
  remember (String.length s) as n eqn:Hn.
  revert s Hn. induction n as [n IH] using lt_wf_ind. intros s ->.
  destruct (trimStart_caso s) as (r & C & Hr & [->|L]).
  - by rewrite (caso_parado s s C).
  - rewrite Hr. pose proof (IH _ L r eq_refl). lia.
Qed.

Lemma trimStart_idemp s : trimStart (trimStart s) = trimStart s.
Proof.
  remember (String.length s) as n eqn:Hn.
  revert s Hn. induction n as [n IH] using lt_wf_ind. intros s ->.
  destruct (trimStart_caso s) as (r & C & Hr & [->|L]).
  - by rewrite !(caso_parado s s C).
  - rewrite Hr. by apply (IH _ L).
Qed.

(** A text that is white space only stays so when white space follows. *)
Lemma trimStart_app_espacos x w :
  trimStart x = "" → trimStart (x +:+ w) = trimStart w.
Proof.
  remember (String.length x) as n eqn:Hn.
  revert x Hn. induction n as [n IH] using lt_wf_ind. intros x -> Hx.
  destruct (trimStart_caso x) as (r & C & Hr & _).
  inversion C as [|a s E1|a b s E1 E2|a b c s E1 E2 E3|? N F]; subst.
  - done.
  - rewrite str_app_cons, trimStart_ws1 by done.
    apply (IH (String.length r)); [simpl; lia|done|]. by rewrite <- Hr.
  - rewrite !str_app_cons, trimStart_ws2 by done.
    apply (IH (String.length r)); [simpl; lia|done|]. by rewrite <- Hr.
  - rewrite !str_app_cons, trimStart_ws3 by done.
    apply (IH (String.length r)); [simpl; lia|done|]. by rewrite <- Hr.
  - congruence.
Qed.

(** A prefix of a text without leading white space has none either. *)
Lemma trimStart_prefixo v w : trimStart (v +:+ w) = v +:+ w → trimStart v = v.
Proof.
  intros H.
  destruct (trimStart_caso v) as (r & C & Hr & _).
  inversion C as [|a s E1|a b s E1 E2|a b c s E1 E2 E3|? N F]; subst;
    [done| | | |done]; exfalso.
  - rewrite str_app_cons, trimStart_ws1 in H by done.
    pose proof (trimStart_length (r +:+ w)) as L. rewrite H in L.
    simpl in L. lia.
  - rewrite !str_app_cons, trimStart_ws2 in H by done.
    pose proof (trimStart_length (r +:+ w)) as L. rewrite H in L.
    simpl in L. lia.
  - rewrite !str_app_cons, trimStart_ws3 in H by done.
    pose proof (trimStart_length (r +:+ w)) as L. rewrite H in L.
    simpl in L. lia.
Qed.

(** What [trimEnd] removes is white space. *)
Lemma trimEnd_decomp s : ∃ w, s = trimEnd s +:+ w ∧ trimStart w = "".
Proof.
  induction s as [|a s IH].
  - by exists "".
  - cbn [trimEnd]. destruct (so_espacos (String a s)) eqn:E.
    + exists (String a s). split; [done|].
      unfold so_espacos in E. by apply bool_decide_eq_true in E.
    + destruct IH as (w & Hs & Hw). exists w. split; [|done].
      rewrite str_app_cons. by f_equal.
Qed.

Lemma trimEnd_idemp s : trimEnd (trimEnd s) = trimEnd s.
Proof.
  induction s as [|a s IH]; [done|].
  cbn [trimEnd]. destruct (so_espacos (String a s)) eqn:E; [done|].
  cbn [trimEnd]. rewrite IH.
  destruct (so_espacos (String a (trimEnd s))) eqn:E'; [|done].
  exfalso. unfold so_espacos in E, E'.
  apply bool_decide_eq_true in E'. apply bool_decide_eq_false in E.
  apply E. destruct (trimEnd_decomp s) as (w & Hs & Hw).
  rewrite Hs at 1. rewrite <- str_app_cons.
  by rewrite trimStart_app_espacos.
Qed.

(** Trimming a trimmed text changes nothing. *)
Lemma trim_idemp s : trim (trim s) = trim s.
Proof.
  unfold trim.
  assert (trimStart (trimEnd (trimStart s)) = trimEnd (trimStart s)) as ->.
  { destruct (trimEnd_decomp (trimStart s)) as (w & Hs & _).
    apply (trimStart_prefixo _ w). rewrite <- Hs. apply trimStart_idemp. }
  apply trimEnd_idemp.
Qed.

End Trim.

(** ** The scraper *)

Section Scraper.

Variable nomeEmpresa : string.

Lemma ou_decide s d : ou s d = if decide (s = "") then d else s.
Proof.
  unfold ou, truthy. destruct (decide (s = "")) as [->|N]; [done|].
  by rewrite bool_decide_eq_false_2.
Qed.

Lemma so_relogio_refl m : so_relogio m m.
Proof. by destruct m. Qed.

Lemma so_relogio_trans m1 m2 m3 :
  so_relogio m1 m2 → so_relogio m2 m3 → so_relogio m1 m3.
Proof. unfold so_relogio. intros -> ->. by destruct m1. Qed.

(** Past the cap the callback asks [each] to stop. *)
Lemma extrai_card_limite index item acc m :
  (CONFIG_MAX_RECLAMACOES ≤ index)%nat →
  extrai_card nomeEmpresa index item acc m = (m, Retorno (acc, false)).
Proof. intros H. unfold extrai_card. by rewrite bool_decide_eq_true_2. Qed.

(** A card without title is skipped. *)
Lemma extrai_card_sem_titulo index item acc m :
  (index < CONFIG_MAX_RECLAMACOES)%nat → ¬ tem_titulo item →
  extrai_card nomeEmpresa index item acc m = (m, Retorno (acc, true)).
Proof.
  intros H N. unfold extrai_card. rewrite bool_decide_eq_false_2 by lia.
  unfold tem_titulo in N. apply dec_stable in N.
  unfold truthy at 1. by rewrite bool_decide_eq_true_2.
Qed.

(** A card with a title yields one record. *)
Lemma extrai_card_com_titulo index item acc m :
  (index < CONFIG_MAX_RECLAMACOES)%nat → tem_titulo item →
  ∃ m' r, extrai_card nomeEmpresa index item acc m
          = (m', Retorno ((acc ++ [r])%list, true))
          ∧ registro_de nomeEmpresa item r ∧ so_relogio m m'.
Proof.
  intros H T. unfold extrai_card. rewrite bool_decide_eq_false_2 by lia.
  unfold tem_titulo in T.
  unfold truthy at 1. rewrite bool_decide_eq_false_2 by done. cbn [negb].
  unfold truthy at 1.
  destruct (decide (trim (texto_data item) = "")) as [E|E].
  - rewrite bool_decide_eq_true_2 by done. cbn [negb].
    eexists _, _. split; [reflexivity|]. split.
    + split; cbn [titulo descricao status data local empresa];
        rewrite ?ou_decide; try done.
      rewrite decide_True by done. by eexists.
    + by destruct m.
  - rewrite bool_decide_eq_false_2 by done. cbn [negb].
    eexists _, _. split; [reflexivity|]. split.
    + split; cbn [titulo descricao status data local empresa];
        rewrite ?ou_decide; try done.
      by rewrite decide_False by done.
    + by destruct m.
Qed.

(** The loop over the cards, from any index and with any array so far. *)
Lemma each_extrai_card cards : ∀ index acc m,
  (index ≤ CONFIG_MAX_RECLAMACOES)%nat →
  ∃ m' novas,
    each (extrai_card nomeEmpresa) index cards acc m
    = (m', Retorno (acc ++ novas)%list)
    ∧ Forall2 (registro_de nomeEmpresa)
        (filter tem_titulo (take (CONFIG_MAX_RECLAMACOES - index) cards))
        novas
    ∧ so_relogio m m'
    ∧ each (extrai_card nomeEmpresa) index
        (take (CONFIG_MAX_RECLAMACOES - index) cards) acc m
      = (m', Retorno (acc ++ novas)%list).
Proof.
  induction cards as [|c cards IH]; intros index acc m Hi.
  { exists m, []. rewrite take_nil, app_nil_r. cbn.
    repeat split; auto using so_relogio_refl. }
  destruct (decide (index = CONFIG_MAX_RECLAMACOES)) as [->|Hlt].
  { exists m, []. rewrite Nat.sub_diag, app_nil_r. cbn [take each].
    unfold liga. rewrite extrai_card_limite by done.
    repeat split; auto using so_relogio_refl. }
  assert (index < CONFIG_MAX_RECLAMACOES)%nat as Hlt' by lia.
  replace (CONFIG_MAX_RECLAMACOES - index)%nat
    with (S (CONFIG_MAX_RECLAMACOES - S index)) by lia.
  cbn [take each]. unfold liga.
  destruct (decide (tem_titulo c)) as [T|T].
  - destruct (extrai_card_com_titulo index c acc m Hlt' T)
      as (m1 & r & -> & Hr & Hm1).
    cbn [fst snd].
    destruct (IH (S index) (acc ++ [r])%list m1 ltac:(lia))
      as (m' & novas & -> & Hn & Hm' & ->).
    exists m', (r :: novas). rewrite <- app_assoc. cbn [app].
    repeat split; [|by eapply so_relogio_trans].
    rewrite filter_cons_True by done. by constructor.
  - rewrite extrai_card_sem_titulo by done. cbn [fst snd].
    destruct (IH (S index) acc m ltac:(lia))
      as (m' & novas & -> & Hn & Hm' & ->).
    exists m', novas. repeat split; [|done].
    by rewrite filter_cons_False by done.
Qed.

Lemma axios_get_resolve cards resto m :
  axios_get (com_rede (Resolve cards :: resto) m)
  = (com_rede resto m, Retorno cards).
Proof. reflexivity. Qed.

Lemma axios_get_reject e resto m :
  axios_get (com_rede (Reject e :: resto) m) = (com_rede resto m, Excecao e).
Proof. reflexivity. Qed.

(** The request answered by a document: what [buscarReclamacoes] does. *)
Lemma buscarReclamacoes_resolve cards resto m :
  ∃ m' recl,
    buscarReclamacoes nomeEmpresa (com_rede (Resolve cards :: resto) m)
    = (m', Retorno recl)
    ∧ Forall2 (registro_de nomeEmpresa)
        (filter tem_titulo (take CONFIG_MAX_RECLAMACOES cards)) recl
    ∧ so_relogio (com_rede resto m) m'
    ∧ buscarReclamacoes nomeEmpresa
        (com_rede (Resolve (take CONFIG_MAX_RECLAMACOES cards) :: resto) m)
      = (m', Retorno recl).
Proof.
  destruct (each_extrai_card cards 0%nat [] (com_rede resto m) ltac:(lia))
    as (m' & recl & He & Hf & Hm & Ht).
  rewrite Nat.sub_0_r in Hf, Ht. cbn [app] in He, Ht.
  exists m', recl. unfold buscarReclamacoes, tenta, liga.
  rewrite !axios_get_resolve, He, Ht. done.
Qed.

End Scraper.

(** C4. Whatever document the request is answered with, [buscarReclamacoes]
    returns, and no record it returns has an empty title after trimming: the
    records are those of the cards (among the first 20) whose trimmed title
    is not empty, in order, whatever the other fields of a discarded card
    hold; each record carries the trimmed texts of its card, with
    'Sem descrição', 'Não informado', a clock reading and 'Não informado'
    standing for a missing description, status, date and location. *)
Theorem buscarReclamacoes_descarta_sem_titulo
    (nomeEmpresa : string) (cards : list Card) (resto : list RespostaAxios)
    (m : Mundo) :
  ∃ m' recl,
    buscarReclamacoes nomeEmpresa (com_rede (Resolve cards :: resto) m)
    = (m', Retorno recl)
    ∧ Forall (λ r, trim (titulo r) ≠ "") recl
    ∧ Forall2 (registro_de nomeEmpresa)
        (filter tem_titulo (take CONFIG_MAX_RECLAMACOES cards)) recl.
Proof.
  destruct (buscarReclamacoes_resolve nomeEmpresa cards resto m)
    as (m' & recl & Hb & Hf & _).
  exists m', recl. repeat split; [done| |done].
  eapply Forall2_Forall_r; [exact Hf|].
  apply Forall_forall. intros c Hc r Hr.
  apply list_elem_of_filter in Hc as [Hc _].
  rewrite (rd_titulo _ _ _ Hr), trim_idemp. exact Hc.
Qed.

(** C8. Whatever document the request is answered with, [buscarReclamacoes]
    returns at most 20 records, and the cards past the twentieth are not
    looked at: the same call on the document cut after its first 20 cards
    gives the same records and leaves the same state. *)
Theorem buscarReclamacoes_limite_20
    (nomeEmpresa : string) (cards : list Card) (resto : list RespostaAxios)
    (m : Mundo) :
  ∃ m' recl,
    buscarReclamacoes nomeEmpresa (com_rede (Resolve cards :: resto) m)
    = (m', Retorno recl)
    ∧ (length recl ≤ 20)%nat
    ∧ buscarReclamacoes nomeEmpresa (com_rede (Resolve (take 20 cards) :: resto) m)
      = (m', Retorno recl).
Proof.
  destruct (buscarReclamacoes_resolve nomeEmpresa cards resto m)
    as (m' & recl & Hb & Hf & _ & Ht).
  exists m', recl. repeat split; [done| |done].
  rewrite <- (Forall2_length _ _ _ Hf).
  etrans; [apply length_filter|]. rewrite length_take.
  unfold CONFIG_MAX_RECLAMACOES. lia.
Qed.

(** C5. [buscarReclamacoes] throws 'Empresa não encontrada no Reclame Aqui'
    when axios rejects with a response of status 404, 'Acesso bloqueado pelo
    Reclame Aqui' when the status is 403, 'Sem resposta do servidor' when
    the error has a request and no response, and the error of axios itself
    (which carries the status) for a response with any other status; a
    document in which the selector matches no card gives the empty array. *)
Theorem buscarReclamacoes_classifica_falhas
    (nomeEmpresa : string) (resto : list RespostaAxios) (m : Mundo)
    (msg : string) (cod : option string) (req : bool) (st : Z)
    (Hst : st ≠ 404 ∧ st ≠ 403) :
  let resultado r := (buscarReclamacoes nomeEmpresa (com_rede (r :: resto) m)).2 in
  let erro_axios resp rq :=
    {| message := msg; code := cod; response := resp; request := rq |} in
  resultado (Reject (erro_axios (Some 404) req)) = Excecao erro_nao_encontrada
  ∧ resultado (Reject (erro_axios (Some 403) req)) = Excecao erro_bloqueado
  ∧ resultado (Reject (erro_axios None true)) = Excecao erro_sem_resposta
  ∧ resultado (Reject (erro_axios (Some st) req))
    = Excecao (erro_axios (Some st) req)
  ∧ resultado (Resolve []) = Retorno [].
Proof.
  destruct Hst as [H404 H403]. cbv zeta.
  unfold buscarReclamacoes, tenta, liga.
  rewrite !axios_get_reject, axios_get_resolve.
  repeat split; try reflexivity.
  unfold trata_erro_busca, liga, console_error. cbn [response fst snd].
  by rewrite !bool_decide_eq_false_2 by done.
Qed.

Lemma buscarReclamacoes_classifica_falhas_witness :
  (buscarReclamacoes "Acme" (com_rede
     [Reject {| message := "Request failed with status code 500";
                code := Some "ERR_BAD_RESPONSE"; response := Some 500;
                request := true |}] mundo_vazio)).2
  = Excecao {| message := "Request failed with status code 500";
               code := Some "ERR_BAD_RESPONSE"; response := Some 500;
               request := true |}.
Proof.
  apply (buscarReclamacoes_classifica_falhas "Acme" [] mundo_vazio
           "Request failed with status code 500" (Some "ERR_BAD_RESPONSE")
           true 500).
  split; lia.
Defined.


(** ** The store *)

Section Store.

Lemma falhas_avanca m : falhas (banco (avanca m)) = tail (falhas (banco m)).
Proof. reflexivity. Qed.

Lemma reclamacoes_avanca m :
  reclamacoes (banco (avanca m)) = reclamacoes (banco m).
Proof. reflexivity. Qed.

(** The three ways a turn of the loop ends. *)
Lemma salva_uma_aceita r c m :
  hd None (falhas (banco m)) = None →
  salva_uma r c m
  = (com_banco (sql_insert_reclamacao (linha_de r) (banco (avanca m))).1 (avanca m),
     Retorno {| salvos := S (salvos c); duplicados := duplicados c |}).
Proof.
  intros H. unfold salva_uma, tenta, liga, client_query, liga, proxima_falha.
  rewrite H. unfold sql_insert_reclamacao, avanca, proxima_falha. cbn [fst snd].
  by destruct (conflita _ _).
Qed.

Lemma salva_uma_duplicata r c m erro :
  hd None (falhas (banco m)) = Some erro → code erro = Some "23505" →
  salva_uma r c m
  = (avanca m, Retorno {| salvos := salvos c; duplicados := S (duplicados c) |}).
Proof.
  intros H E. unfold salva_uma, tenta, liga, client_query, liga, proxima_falha.
  rewrite H. unfold lanca. by rewrite bool_decide_eq_true_2.
Qed.

Lemma salva_uma_erro r c m erro :
  hd None (falhas (banco m)) = Some erro → code erro ≠ Some "23505" →
  salva_uma r c m
  = (com_console
       (console m ++ [RegMensagem "❌ Erro ao salvar reclamação:" (message erro)])%list
       (avanca m),
     Retorno c).
Proof.
  intros H E. unfold salva_uma, tenta, liga, client_query, liga, proxima_falha.
  rewrite H. unfold lanca. by rewrite bool_decide_eq_false_2.
Qed.

(** A turn of the loop never throws; it keeps the rows there were, and adds
    at most the row of its record, when that row collides with none. *)
Lemma salva_uma_total r c m :
  ∃ m' c',
    salva_uma r c m = (m', Retorno c')
    ∧ falhas (banco m') = tail (falhas (banco m))
    ∧ (reclamacoes (banco m') = reclamacoes (banco m)
       ∨ (conflita (linha_de r) (reclamacoes (banco m)) = false
          ∧ reclamacoes (banco m')
            = (reclamacoes (banco m) ++ [linha_de r])%list)).
Proof.
  destruct (hd None (falhas (banco m))) as [erro|] eqn:H.
  - destruct (decide (code erro = Some "23505")) as [E|E].
    + rewrite (salva_uma_duplicata _ _ _ _ H E). eexists _, _.
      split; [reflexivity|]. auto.
    + rewrite (salva_uma_erro _ _ _ _ H E). eexists _, _.
      split; [reflexivity|]. auto.
  - rewrite (salva_uma_aceita _ _ _ H). eexists _, _.
    split; [reflexivity|].
    unfold sql_insert_reclamacao. rewrite reclamacoes_avanca.
    destruct (conflita _ _) eqn:C; cbn; auto.
Qed.

Lemma laco_salvar_total lote : ∀ c m,
  ∃ m' c', laco_salvar lote c m = (m', Retorno c').
Proof.
  induction lote as [|r lote IH]; intros c m; [by eexists _, _|].
  cbn [laco_salvar]. unfold liga.
  destruct (salva_uma_total r c m) as (m1 & c1 & -> & _). apply IH.
Qed.

Lemma laco_salvar_app l1 l2 c m m1 c1 :
  laco_salvar l1 c m = (m1, Retorno c1) →
  laco_salvar (l1 ++ l2) c m = laco_salvar l2 c1 m1.
Proof.
  revert c m. induction l1 as [|r l1 IH]; intros c m H.
  - by injection H as -> ->.
  - cbn [laco_salvar app] in *. unfold liga in *.
    destruct (salva_uma_total r c m) as (m2 & c2 & E & _).
    rewrite E in *. by apply IH.
Qed.

Lemma tenta_retorno {A} (c : Efeito A) h m m' a :
  c m = (m', Retorno a) → tenta c h m = (m', Retorno a).
Proof. unfold tenta. by intros ->. Qed.

Lemma pool_connect_aceita m :
  hd None (falhas (banco m)) = None → pool_connect m = (avanca m, Retorno tt).
Proof. intros H. unfold pool_connect, liga, proxima_falha. by rewrite H. Qed.

Lemma pool_connect_recusa m erro :
  hd None (falhas (banco m)) = Some erro →
  pool_connect m = (avanca m, Excecao erro).
Proof. intros H. unfold pool_connect, liga, proxima_falha. by rewrite H. Qed.

(** With a client in hand, [salvarReclamacoesDB] is its loop: the outer
    [catch] has nothing to catch. *)
Lemma salvarReclamacoesDB_conectado lote m :
  hd None (falhas (banco m)) = None →
  salvarReclamacoesDB lote m
  = laco_salvar lote {| salvos := 0; duplicados := 0 |} (avanca m).
Proof.
  intros H. unfold salvarReclamacoesDB, liga. rewrite pool_connect_aceita by done.
  destruct (laco_salvar_total lote {| salvos := 0; duplicados := 0 |} (avanca m))
    as (m' & c' & E).
  rewrite E. by apply tenta_retorno.
Qed.

Lemma salvarReclamacoesDB_desconectado lote m erro :
  hd None (falhas (banco m)) = Some erro →
  salvarReclamacoesDB lote m = (avanca m, Excecao erro).
Proof.
  intros H. unfold salvarReclamacoesDB, liga. by rewrite (pool_connect_recusa _ erro).
Qed.

(** *** Collisions *)

Lemma conflita_app l t1 t2 : conflita l (t1 ++ t2) = conflita l t1 || conflita l t2.
Proof. apply existsb_app. Qed.

Lemma conflita_propria l t :
  is_Some (id_externo l) → conflita l (t ++ [l]) = true.
Proof.
  intros [i Hi]. rewrite conflita_app. cbn. unfold mesma_chave. rewrite Hi.
  rewrite !bool_decide_eq_true_2 by done. cbn. by rewrite !orb_true_r.
Qed.

(** After the INSERT the key of an identified row is stored, by this row or
    by the one that was there. *)
Lemma conflita_apos_insert l b :
  is_Some (id_externo l) →
  conflita l (reclamacoes (sql_insert_reclamacao l b).1) = true.
Proof.
  intros Hi. unfold sql_insert_reclamacao.
  destruct (conflita l (reclamacoes b)) eqn:C; cbn; [done|].
  by apply conflita_propria.
Qed.

(** *** What the loop does to the table *)

(** The rows there were stay, in place; the rows added collide with none
    of them. *)
Lemma laco_salvar_linhas lote : ∀ c m,
  ∃ m' c' novas,
    laco_salvar lote c m = (m', Retorno c')
    ∧ reclamacoes (banco m') = (reclamacoes (banco m) ++ novas)%list
    ∧ Forall (λ n, conflita n (reclamacoes (banco m)) = false) novas.
Proof.
  induction lote as [|r lote IH]; intros c m.
  { exists m, c, []. by rewrite app_nil_r. }
  cbn [laco_salvar]. unfold liga.
  destruct (salva_uma_total r c m) as (m1 & c1 & -> & _ & Hl).
  destruct (IH c1 m1) as (m' & c' & novas & -> & Hr & Hn).
  destruct Hl as [Hl|[Hc Hl]]; rewrite Hl in Hr, Hn.
  - by exists m', c', novas.
  - exists m', c', (linha_de r :: novas). rewrite <- app_assoc in Hr.
    repeat split; [done|]. constructor; [done|].
    eapply Forall_impl; [exact Hn|]. intros n Hn'. cbn beta in Hn'.
    rewrite conflita_app in Hn'. by apply orb_false_elim in Hn' as [? _].
Qed.

(** Records whose key is stored already leave the table as it is, whatever
    the engine answers. *)
Lemma laco_salvar_presentes lote : ∀ c m,
  Forall (λ r, conflita (linha_de r) (reclamacoes (banco m)) = true) lote →
  ∃ m' c',
    laco_salvar lote c m = (m', Retorno c')
    ∧ reclamacoes (banco m') = reclamacoes (banco m).
Proof.
  induction lote as [|r lote IH]; intros c m H.
  { by exists m, c. }
  apply Forall_cons in H as [Hr H].
  cbn [laco_salvar]. unfold liga.
  destruct (salva_uma_total r c m) as (m1 & c1 & -> & _ & Hl).
  destruct Hl as [Hl|[Hc _]]; [|congruence].
  destruct (IH c1 m1) as (m' & c' & -> & E); [by rewrite Hl|].
  exists m', c'. split; [done|]. by rewrite E.
Qed.

Lemma sem_falhas_S k m :
  sem_falhas (S k) m →
  hd None (falhas (banco m)) = None ∧ sem_falhas k (avanca m).
Proof.
  unfold sem_falhas. rewrite falhas_avanca.
  destruct (falhas (banco m)) as [|f fs]; cbn; [by rewrite take_nil|].
  by intros [-> ?]%Forall_cons.
Qed.

(** While the engine refuses nothing every query counts as saved, and
    afterwards the key of every identified record of the batch is stored. *)
Lemma laco_salvar_sem_falhas lote : ∀ c m,
  sem_falhas (length lote) m →
  ∃ m',
    laco_salvar lote c m
    = (m', Retorno {| salvos := salvos c + length lote;
                      duplicados := duplicados c |})
    ∧ falhas (banco m') = drop (length lote) (falhas (banco m))
    ∧ Forall (λ r, identificada r →
                   conflita (linha_de r) (reclamacoes (banco m')) = true) lote.
Proof.
  induction lote as [|r lote IH]; intros c m H.
  { exists m. destruct c. cbn. by rewrite Nat.add_0_r. }
  apply sem_falhas_S in H as [H0 H].
  cbn [laco_salvar]. unfold liga. rewrite salva_uma_aceita by done.
  set (m1 := com_banco _ _).
  assert (falhas (banco m1) = tail (falhas (banco m))) as Hf.
  { unfold m1, sql_insert_reclamacao. by destruct (conflita _ _). }
  destruct (IH {| salvos := S (salvos c); duplicados := duplicados c |} m1)
    as (m' & E & Hf' & Hk).
  { unfold sem_falhas in *. by rewrite Hf, <- falhas_avanca. }
  exists m'. rewrite E. cbn [salvos duplicados length].
  replace (S (salvos c) + length lote)%nat with (salvos c + S (length lote))%nat
    by lia.
  split; [done|]. split.
  { rewrite Hf', Hf. destruct (falhas (banco m)); cbn; by rewrite ?drop_nil. }
  constructor; [|done]. intros Hid.
  destruct (laco_salvar_linhas lote
              {| salvos := S (salvos c); duplicados := duplicados c |} m1)
    as (m'' & c'' & novas & E' & Hr & _).
  rewrite E in E'. injection E' as <- _. rewrite Hr, conflita_app.
  apply orb_true_intro. left.
  by apply conflita_apos_insert.
Qed.

(** *** Records without external identifier *)

(** A record without external identifier collides with no row. *)
Lemma conflita_sem_id r t : id r = None → conflita (linha_de r) t = false.
Proof.
  intros H. unfold conflita. induction t as [|a t IH]; [done|].
  cbn [existsb]. rewrite IH. unfold mesma_chave. cbn [linha_de id_externo].
  by rewrite H.
Qed.

Lemma linhas_sem_id_sem r lote :
  id r = None → linhas_sem_id (r :: lote) = linha_de r :: linhas_sem_id lote.
Proof. intros H. unfold linhas_sem_id. by rewrite filter_cons_True. Qed.

Lemma linhas_sem_id_com r lote :
  identificada r → linhas_sem_id (r :: lote) = linhas_sem_id lote.
Proof.
  intros [i H]. unfold linhas_sem_id. rewrite filter_cons_False; [done|].
  by rewrite H.
Qed.

Lemma linhas_sem_id_cons_sublist r lote :
  linhas_sem_id lote `sublist_of` linhas_sem_id (r :: lote).
Proof.
  destruct (id r) as [i|] eqn:E.
  - rewrite linhas_sem_id_com; [done|]. by exists i.
  - rewrite linhas_sem_id_sem by done. by apply sublist_cons.
Qed.

Lemma falhas_apos_insert l m :
  falhas (banco (com_banco (sql_insert_reclamacao l (banco (avanca m))).1 (avanca m)))
  = tail (falhas (banco m)).
Proof. unfold sql_insert_reclamacao. by destruct (conflita _ _). Qed.

Lemma sem_falhas_apos_insert k l m :
  sem_falhas k (avanca m) →
  sem_falhas k (com_banco (sql_insert_reclamacao l (banco (avanca m))).1 (avanca m)).
Proof. unfold sem_falhas. by rewrite falhas_apos_insert, falhas_avanca. Qed.

(** The rows the loop adds are rows of records of the batch, in the order of
    the batch; while the engine refuses nothing, the row of every record
    without identifier is among them. *)
Lemma laco_salvar_novas lote : ∀ c m,
  ∃ m' c' novas,
    laco_salvar lote c m = (m', Retorno c')
    ∧ reclamacoes (banco m') = (reclamacoes (banco m) ++ novas)%list
    ∧ novas `sublist_of` (linha_de <$> lote)
    ∧ (sem_falhas (length lote) m → linhas_sem_id lote `sublist_of` novas).
Proof.
  induction lote as [|r lote IH]; intros c m.
  { exists m, c, []. by rewrite app_nil_r. }
  cbn [laco_salvar]. unfold liga.
  destruct (hd None (falhas (banco m))) as [erro|] eqn:F.
  - assert (∃ m1 c1, salva_uma r c m = (m1, Retorno c1)
                     ∧ reclamacoes (banco m1) = reclamacoes (banco m))
      as (m1 & c1 & -> & Hl).
    { destruct (decide (code erro = Some "23505")) as [E|E].
      - rewrite (salva_uma_duplicata _ _ _ _ F E). by eexists _, _.
      - rewrite (salva_uma_erro _ _ _ _ F E). by eexists _, _. }
    destruct (IH c1 m1) as (m' & c' & novas & -> & Hr & Hs & _).
    exists m', c', novas. rewrite Hl in Hr. split_and!; [done..| |].
    + rewrite fmap_cons. by apply sublist_cons.
    + intros [H0 _]%sem_falhas_S. congruence.
  - rewrite salva_uma_aceita by done. set (m1 := com_banco _ _).
    destruct (IH {| salvos := S (salvos c); duplicados := duplicados c |} m1)
      as (m' & c' & novas & -> & Hr & Hs & Hi).
    assert (sem_falhas (S (length lote)) m → sem_falhas (length lote) m1) as Hf.
    { intros [_ H]%sem_falhas_S. by apply sem_falhas_apos_insert. }
    unfold m1, sql_insert_reclamacao in Hr. rewrite reclamacoes_avanca in Hr.
    destruct (conflita (linha_de r) (reclamacoes (banco m))) eqn:C;
      cbn [fst banco com_banco reclamacoes com_reclamacoes] in Hr.
    + exists m', c', novas. split_and!; [done..| |].
      * rewrite fmap_cons. by apply sublist_cons.
      * intros H. cbn [length] in H. rewrite linhas_sem_id_com; [auto|].
        destruct (id r) as [i|] eqn:E; [by exists i|].
        by rewrite conflita_sem_id in C.
    + exists m', c', (linha_de r :: novas). rewrite <- app_assoc in Hr.
      split_and!; [done..| |].
      * rewrite fmap_cons. by apply sublist_skip.
      * intros H. cbn [length] in H. destruct (id r) as [i|] eqn:E.
        -- rewrite linhas_sem_id_com by (by exists i). apply sublist_cons. auto.
        -- rewrite linhas_sem_id_sem by done. apply sublist_skip. auto.
Qed.

(** Once the key of every identified record is stored, the loop adds rows of
    records without identifier only: all of them while the engine refuses
    nothing. *)
Lemma laco_salvar_reaplica lote : ∀ c m,
  Forall (λ r, identificada r →
               conflita (linha_de r) (reclamacoes (banco m)) = true) lote →
  ∃ m' c' novas,
    laco_salvar lote c m = (m', Retorno c')
    ∧ reclamacoes (banco m') = (reclamacoes (banco m) ++ novas)%list
    ∧ novas `sublist_of` linhas_sem_id lote
    ∧ (sem_falhas (length lote) m → novas = linhas_sem_id lote).
Proof.
  induction lote as [|r lote IH]; intros c m Hk.
  { exists m, c, []. by rewrite app_nil_r. }
  apply Forall_cons in Hk as [Hr0 Hk].
  cbn [laco_salvar]. unfold liga.
  destruct (hd None (falhas (banco m))) as [erro|] eqn:F.
  - assert (∃ m1 c1, salva_uma r c m = (m1, Retorno c1)
                     ∧ reclamacoes (banco m1) = reclamacoes (banco m))
      as (m1 & c1 & -> & Hl).
    { destruct (decide (code erro = Some "23505")) as [E|E].
      - rewrite (salva_uma_duplicata _ _ _ _ F E). by eexists _, _.
      - rewrite (salva_uma_erro _ _ _ _ F E). by eexists _, _. }
    destruct (IH c1 m1) as (m' & c' & novas & -> & Hr & Hs & _).
    { by rewrite Hl. }
    exists m', c', novas. rewrite Hl in Hr. split_and!; [done..| |].
    + etrans; [exact Hs|]. apply linhas_sem_id_cons_sublist.
    + intros [H0 _]%sem_falhas_S. congruence.
  - rewrite salva_uma_aceita by done. set (m1 := com_banco _ _).
    assert (∃ extra, reclamacoes (banco m1) = (reclamacoes (banco m) ++ extra)%list
                     ∧ (extra = [] ∧ identificada r
                        ∨ extra = [linha_de r] ∧ id r = None))
      as (extra & Hm1 & Hex).
    { unfold m1, sql_insert_reclamacao. rewrite reclamacoes_avanca.
      destruct (conflita (linha_de r) (reclamacoes (banco m))) eqn:C;
        cbn [fst banco com_banco reclamacoes com_reclamacoes].
      - exists []. rewrite app_nil_r. split; [done|]. left. split; [done|].
        destruct (id r) as [i|] eqn:E; [by exists i|].
        by rewrite conflita_sem_id in C.
      - exists [linha_de r]. split; [done|]. right. split; [done|].
        destruct (id r) as [i|] eqn:E; [|done].
        assert (identificada r) as Hid by (by exists i).
        apply Hr0 in Hid. congruence. }
    destruct (IH {| salvos := S (salvos c); duplicados := duplicados c |} m1)
      as (m' & c' & novas & -> & Hr & Hs & Hi).
    { eapply Forall_impl; [exact Hk|]. intros r' Hr' Hid. cbn beta in Hr'.
      rewrite Hm1, conflita_app, Hr' by done. done. }
    assert (sem_falhas (S (length lote)) m → sem_falhas (length lote) m1) as Hf.
    { intros [_ H]%sem_falhas_S. by apply sem_falhas_apos_insert. }
    rewrite Hm1 in Hr. exists m', c', (extra ++ novas)%list.
    rewrite app_assoc. split_and!; [done..| |].
    + destruct Hex as [[-> Hid]|[-> Hid]]; cbn [app].
      * by rewrite linhas_sem_id_com.
      * rewrite linhas_sem_id_sem by done. by apply sublist_skip.
    + intros H. cbn [length] in H. rewrite (Hi (Hf H)).
      destruct Hex as [[-> Hid]|[-> Hid]]; cbn [app].
      * by rewrite linhas_sem_id_com.
      * by rewrite linhas_sem_id_sem.
Qed.

(** Each turn adds one to at most one of the two counters. *)
Lemma laco_salvar_contagem lote : ∀ c m m' c',
  laco_salvar lote c m = (m', Retorno c') →
  (salvos c' + duplicados c' ≤ salvos c + duplicados c + length lote)%nat.
Proof.
  induction lote as [|r lote IH]; intros c m m' c' H.
  { injection H as _ <-. cbn. lia. }
  cbn [laco_salvar] in H. unfold liga in H.
  destruct (salva_uma r c m) as [m1 [c1|e]] eqn:E; [|done].
  apply IH in H. cbn [length].
  enough (salvos c1 + duplicados c1 ≤ S (salvos c + duplicados c))%nat by lia.
  clear H. destruct (hd None (falhas (banco m))) as [erro|] eqn:F.
  - destruct (decide (code erro = Some "23505")) as [D|D].
    + rewrite (salva_uma_duplicata _ _ _ _ F D) in E.
      injection E as _ <-. cbn. lia.
    + rewrite (salva_uma_erro _ _ _ _ F D) in E. injection E as _ <-. lia.
  - rewrite (salva_uma_aceita _ _ _ F) in E. injection E as _ <-. cbn. lia.
Qed.

(** As long as the engine refuses nothing, [salvos] is the size of the
    batch and [duplicados] is zero, whether or not the rows were there. *)
Lemma salvarReclamacoesDB_conta_consultas lote m :
  sem_falhas (S (length lote)) m →
  (salvarReclamacoesDB lote m).2
  = Retorno {| salvos := length lote; duplicados := 0 |}.
Proof.
  intros [H0 H]%sem_falhas_S. rewrite salvarReclamacoesDB_conectado by done.
  destruct (laco_salvar_sem_falhas lote {| salvos := 0; duplicados := 0 |}
              (avanca m) H) as (m' & -> & _).
  done.
Qed.

(** Whatever the engine answers, the rows there were stay in place, and no
    row added collides with one of them. *)
Lemma salvarReclamacoesDB_linhas lote m :
  ∃ novas,
    linhas_apos lote m = (reclamacoes (banco m) ++ novas)%list
    ∧ Forall (λ n, conflita n (reclamacoes (banco m)) = false) novas.
Proof.
  unfold linhas_apos.
  destruct (hd None (falhas (banco m))) as [erro|] eqn:F.
  - rewrite (salvarReclamacoesDB_desconectado _ _ erro) by done.
    exists []. by rewrite app_nil_r.
  - rewrite salvarReclamacoesDB_conectado by done.
    destruct (laco_salvar_linhas lote {| salvos := 0; duplicados := 0 |}
                (avanca m)) as (m' & c' & novas & -> & Hr & Hn).
    by exists novas.
Qed.

(** Once the key of every record is stored, saving changes no row. *)
Lemma salvarReclamacoesDB_presentes lote m :
  Forall (λ r, conflita (linha_de r) (reclamacoes (banco m)) = true) lote →
  linhas_apos lote m = reclamacoes (banco m).
Proof.
  intros H. unfold linhas_apos.
  destruct (hd None (falhas (banco m))) as [erro|] eqn:F.
  - by rewrite (salvarReclamacoesDB_desconectado _ _ erro) by done.
  - rewrite salvarReclamacoesDB_conectado by done.
    destruct (laco_salvar_presentes lote {| salvos := 0; duplicados := 0 |}
                (avanca m) H) as (m' & c' & -> & Hr).
    done.
Qed.

Lemma salvarReclamacoesDB_novas lote m :
  ∃ novas,
    linhas_apos lote m = (reclamacoes (banco m) ++ novas)%list
    ∧ novas `sublist_of` (linha_de <$> lote)
    ∧ Forall (λ n, conflita n (reclamacoes (banco m)) = false) novas
    ∧ (sem_falhas (S (length lote)) m → linhas_sem_id lote `sublist_of` novas).
Proof.
  destruct (salvarReclamacoesDB_linhas lote m) as (novas & E & Hc).
  exists novas. split_and!; [done| |done|].
  - unfold linhas_apos in E.
    destruct (hd None (falhas (banco m))) as [erro|] eqn:F.
    + rewrite (salvarReclamacoesDB_desconectado _ _ erro) in E by done.
      cbn [fst] in E. rewrite reclamacoes_avanca in E.
      rewrite <- (app_nil_r (reclamacoes (banco m))) in E at 1.
      apply app_inv_head in E as <-. apply sublist_nil_l.
    + rewrite salvarReclamacoesDB_conectado in E by done.
      destruct (laco_salvar_novas lote {| salvos := 0; duplicados := 0 |}
                  (avanca m)) as (m' & c' & novas' & E' & Hr & Hs & _).
      rewrite E' in E. cbn [fst] in E. rewrite Hr, reclamacoes_avanca in E.
      by apply app_inv_head in E as <-.
  - intros [H0 H]%sem_falhas_S. unfold linhas_apos in E.
    rewrite salvarReclamacoesDB_conectado in E by done.
    destruct (laco_salvar_novas lote {| salvos := 0; duplicados := 0 |}
                (avanca m)) as (m' & c' & novas' & E' & Hr & _ & Hi).
    rewrite E' in E. cbn [fst] in E. rewrite Hr, reclamacoes_avanca in E.
    apply app_inv_head in E as <-. auto.
Qed.

Lemma salvarReclamacoesDB_reaplica lote m :
  Forall (λ r, identificada r →
               conflita (linha_de r) (reclamacoes (banco m)) = true) lote →
  ∃ novas,
    linhas_apos lote m = (reclamacoes (banco m) ++ novas)%list
    ∧ novas `sublist_of` linhas_sem_id lote
    ∧ (sem_falhas (S (length lote)) m → novas = linhas_sem_id lote).
Proof.
  intros Hk. unfold linhas_apos.
  destruct (hd None (falhas (banco m))) as [erro|] eqn:F.
  - rewrite (salvarReclamacoesDB_desconectado _ _ erro) by done.
    exists []. rewrite app_nil_r. split_and!; [done|apply sublist_nil_l|].
    intros [H0 _]%sem_falhas_S. congruence.
  - rewrite salvarReclamacoesDB_conectado by done.
    destruct (laco_salvar_reaplica lote {| salvos := 0; duplicados := 0 |}
                (avanca m) Hk) as (m' & c' & novas & -> & Hr & Hs & Hi).
    exists novas. split_and!; [done..|].
    intros [_ H]%sem_falhas_S. auto.
Qed.

End Store.

(** *** Queries *)

Lemma client_query_aceita {A} (stmt : Banco → Banco * Resultado A) m :
  hd None (falhas (banco m)) = None →
  client_query stmt m
  = (com_banco (stmt (banco (avanca m))).1 (avanca m),
     (stmt (banco (avanca m))).2).
Proof.
  intros H. unfold client_query, liga, proxima_falha. by rewrite H.
Qed.

Lemma client_query_recusa {A} (stmt : Banco → Banco * Resultado A) m erro :
  hd None (falhas (banco m)) = Some erro →
  client_query stmt m = (avanca m, Excecao erro).
Proof.
  intros H. unfold client_query, liga, proxima_falha. by rewrite H.
Qed.

(** *** Ordering of the rows *)

#[global] Instance mais_recente_trans : Transitive mais_recente.
Proof. unfold mais_recente. intros a b c. lia. Qed.

#[global] Instance mais_recente_total : Total mais_recente.
Proof. unfold mais_recente. intros a b. lia. Qed.

Lemma StronglySorted_take {A} (R : relation A) n l :
  StronglySorted R l → StronglySorted R (take n l).
Proof.
  intros H. rewrite <- (take_drop n l) in H.
  by apply StronglySorted_app_1_l in H.
Qed.

(** The rows the SELECT gives. *)
Lemma sql_select_por_empresa_linhas emp n b :
  0 ≤ n →
  ∃ linhas,
    sql_select_por_empresa emp n b = (b, Retorno linhas)
    ∧ Z.of_nat (length linhas) ≤ n
    ∧ Forall (λ l, col_empresa l = emp) linhas
    ∧ StronglySorted mais_recente linhas
    ∧ linhas ⊆ reclamacoes b.
Proof.
  intros Hn. unfold sql_select_por_empresa.
  rewrite bool_decide_eq_false_2 by lia. eexists. split; [reflexivity|].
  assert (∀ l, l ∈ take (Z.to_nat n)
                     (merge_sort mais_recente
                        (filter (λ l, col_empresa l = emp) (reclamacoes b)))
               → col_empresa l = emp ∧ l ∈ reclamacoes b) as Hin.
  { intros l Hl%subseteq_take. rewrite merge_sort_Permutation in Hl.
    by apply list_elem_of_filter in Hl. }
  repeat split.
  - rewrite length_take. lia.
  - apply Forall_forall. intros l Hl. by apply Hin.
  - apply StronglySorted_take, StronglySorted_merge_sort; apply _.
  - intros l Hl. by apply Hin.
Qed.

(** C1. Saving the same batch twice into an empty store: the first call
    returns salvos = 1 and duplicados = 0 and stores the row; the second
    call stores nothing, yet it returns salvos = 1 and duplicados = 0 again,
    where inserted = 0 and duplicate = 1 were expected.  The INSERT carries
    ON CONFLICT DO NOTHING, so a key that is present raises no 23505 and the
    query counts as saved. *)
Theorem salvarReclamacoesDB_segunda_chamada :
  let m1 := (salvarReclamacoesDB [reclamacao_exemplo] mundo_vazio).1 in
  let m2 := (salvarReclamacoesDB [reclamacao_exemplo] m1).1 in
  (salvarReclamacoesDB [reclamacao_exemplo] mundo_vazio).2
  = Retorno {| salvos := 1; duplicados := 0 |}
  ∧ (salvarReclamacoesDB [reclamacao_exemplo] m1).2
    = Retorno {| salvos := 1; duplicados := 0 |}
  ∧ reclamacoes (banco m1) = [linha_de reclamacao_exemplo]
  ∧ reclamacoes (banco m2) = [linha_de reclamacao_exemplo].
Proof. vm_compute. done. Qed.

(** C2, as stated, fails: a record without external identifier collides
    with no row, so saving it again stores a second row. *)
Lemma reaplicacao_sem_id_duplica :
  ¬ reaplicacao_inerte [reclamacao_sem_id] mundo_vazio.
Proof.
  intros H. specialize (H [reclamacao_sem_id] (reflexivity _)).
  vm_compute in H. discriminate H.
Qed.

(** Nor is a second save inert after a first one the engine refused in
    part: the row that was refused is stored the second time. *)
Lemma reaplicacao_apos_falha_insere :
  ¬ reaplicacao_inerte [reclamacao_exemplo]
      (com_falhas_no_mundo [None; Some erro_conexao] mundo_vazio).
Proof.
  intros H. specialize (H [reclamacao_exemplo] (reflexivity _)).
  vm_compute in H. discriminate H.
Qed.

(** C2, amended. Whatever the engine answers, saving a batch keeps every
    row that was stored, in place; the rows it adds are rows of records of
    the batch, in the order of the batch, and none of them has a key
    (external id, company) that was stored: a present key is skipped, never
    overwritten.  When the engine refused nothing while the batch was saved,
    saving it again, in any order and whatever the engine then answers,
    keeps the stored rows and adds only rows of records without external
    identifier; so when every record of the batch has an external identifier
    the stored rows are the same, with no new row.  A record without
    external identifier collides with no row: every save during which the
    engine refuses nothing stores each such record of the batch once more. *)
Theorem salvarReclamacoesDB_nao_sobrescreve
    (lote : list Reclamacao) (m : Mundo) :
  (∃ novas,
     linhas_apos lote m = (reclamacoes (banco m) ++ novas)%list
     ∧ novas `sublist_of` (linha_de <$> lote)
     ∧ Forall (λ n, conflita n (reclamacoes (banco m)) = false) novas
     ∧ (sem_falhas (S (length lote)) m → linhas_sem_id lote `sublist_of` novas))
  ∧ (sem_falhas (S (length lote)) m →
     ∀ lote', lote' ≡ₚ lote →
       ∃ novas',
         linhas_apos lote' (salvarReclamacoesDB lote m).1
         = (linhas_apos lote m ++ novas')%list
         ∧ novas' `sublist_of` linhas_sem_id lote'
         ∧ (sem_falhas (S (length lote')) (salvarReclamacoesDB lote m).1 →
            novas' = linhas_sem_id lote'))
  ∧ (sem_falhas (S (length lote)) m → Forall identificada lote →
     reaplicacao_inerte lote m)
  ∧ (∀ r t, id r = None → conflita (linha_de r) t = false).
Proof.
  assert (sem_falhas (S (length lote)) m →
          Forall (λ r, identificada r →
                       conflita (linha_de r) (linhas_apos lote m) = true) lote)
    as Hk.
  { intros [H0 Hok]%sem_falhas_S. unfold linhas_apos.
    rewrite salvarReclamacoesDB_conectado by done.
    by destruct (laco_salvar_sem_falhas lote {| salvos := 0; duplicados := 0 |}
                   (avanca m) Hok) as (m' & -> & _ & Hk). }
  split_and!.
  - apply salvarReclamacoesDB_novas.
  - intros Hok lote' Hp. fold (linhas_apos lote m).
    apply salvarReclamacoesDB_reaplica. rewrite Hp. auto.
  - intros Hok Hid lote' Hp. fold (linhas_apos lote m).
    apply salvarReclamacoesDB_presentes. rewrite Hp.
    specialize (Hk Hok). rewrite !Forall_forall in *. intros r Hr.
    by apply Hk, Hid.
  - apply conflita_sem_id.
Qed.

Lemma salvarReclamacoesDB_nao_sobrescreve_witness :
  let m := mundo_com_linhas [linha_de reclamacao_outra] in
  let lote := [reclamacao_exemplo; reclamacao_sem_id; reclamacao_outra] in
  let lote' := [reclamacao_outra; reclamacao_sem_id; reclamacao_exemplo] in
  linhas_apos lote m
  = [linha_de reclamacao_outra; linha_de reclamacao_exemplo;
     linha_de reclamacao_sem_id]
  ∧ linhas_apos lote' (salvarReclamacoesDB lote m).1
    = (linhas_apos lote m ++ [linha_de reclamacao_sem_id])%list
  ∧ reaplicacao_inerte [reclamacao_exemplo; reclamacao_outra] m.
Proof.
  intros m lote lote'. split; [reflexivity|]. split.
  - destruct (proj1 (proj2 (salvarReclamacoesDB_nao_sobrescreve lote m)))
      with (lote' := lote') as (novas' & E & _ & Hn).
    + vm_compute. constructor.
    + symmetry. exact (Permutation_rev lote).
    + rewrite E, Hn; [reflexivity|]. vm_compute. constructor.
  - apply (salvarReclamacoesDB_nao_sobrescreve
             [reclamacao_exemplo; reclamacao_outra] m).
    + vm_compute. constructor.
    + repeat constructor; by eexists.
Defined.

(** C10. Let the INSERT of record [r] of a batch fail with an error whose
    code is not 23505, in the world [m1] and with the counters [c1] that the
    records before it left.  Then [salvarReclamacoesDB] does not throw: it
    writes the message of the error with [console.error], changing no row
    and neither counter, goes on with the records after [r] from those same
    counters, and returns; the two counters it returns add up to less than
    the size of the batch. *)
Theorem salvarReclamacoesDB_erro_isolado
    (antes depois : list Reclamacao) (r : Reclamacao)
    (m m1 : Mundo) (c1 : Contagem) (erro : JsErro)
    (Hcon : hd None (falhas (banco m)) = None)
    (Hantes : laco_salvar antes {| salvos := 0; duplicados := 0 |} (avanca m)
              = (m1, Retorno c1))
    (Herro : hd None (falhas (banco m1)) = Some erro)
    (Hcode : code erro ≠ Some "23505") :
  let m2 :=
    com_console
      (console m1 ++ [RegMensagem "❌ Erro ao salvar reclamação:" (message erro)])%list
      (avanca m1) in
  ∃ m' c',
    salvarReclamacoesDB (antes ++ r :: depois) m = (m', Retorno c')
    ∧ laco_salvar depois c1 m2 = (m', Retorno c')
    ∧ reclamacoes (banco m2) = reclamacoes (banco m1)
    ∧ (salvos c' + duplicados c' < length (antes ++ r :: depois))%nat.
Proof.
  intros m2.
  destruct (laco_salvar_total depois c1 m2) as (m' & c' & Hd).
  exists m', c'.
  assert (salvarReclamacoesDB (antes ++ r :: depois) m = (m', Retorno c')) as E.
  { rewrite salvarReclamacoesDB_conectado by done.
    rewrite (laco_salvar_app _ _ _ _ _ _ Hantes).
    cbn [laco_salvar]. unfold liga.
    by rewrite (salva_uma_erro _ _ _ _ Herro Hcode). }
  repeat split; [done..|].
  apply laco_salvar_contagem in Hantes, Hd. cbn in Hantes.
  rewrite length_app. cbn [length]. lia.
Qed.

Lemma salvarReclamacoesDB_erro_isolado_witness :
  let m := com_falhas_no_mundo [None; None; Some erro_conexao] mundo_vazio in
  let m1 := (laco_salvar [reclamacao_exemplo]
               {| salvos := 0; duplicados := 0 |} (avanca m)).1 in
  let m2 :=
    com_console
      (console m1 ++ [RegMensagem "❌ Erro ao salvar reclamação:"
                        (message erro_conexao)])%list
      (avanca m1) in
  ∃ m' c',
    salvarReclamacoesDB
      ([reclamacao_exemplo] ++ reclamacao_sem_id :: [reclamacao_outra]) m
    = (m', Retorno c')
    ∧ laco_salvar [reclamacao_outra] {| salvos := 1; duplicados := 0 |} m2
      = (m', Retorno c')
    ∧ reclamacoes (banco m2) = reclamacoes (banco m1)
    ∧ (salvos c' + duplicados c'
       < length ([reclamacao_exemplo] ++ reclamacao_sem_id :: [reclamacao_outra]))%nat.
Proof.
  intros m m1 m2.
  apply (salvarReclamacoesDB_erro_isolado
           [reclamacao_exemplo] [reclamacao_outra] reclamacao_sem_id
           m m1 {| salvos := 1; duplicados := 0 |} erro_conexao).
  - reflexivity.
  - reflexivity.
  - reflexivity.
  - discriminate.
Defined.

(** C9. [buscarReclamacoesDB] called without a limit is the call with limit
    50, which is also what the route passes when the request has none.
    When it returns, the rows are at most as many as the limit, all of the
    company asked for, taken from the table, and ordered from the latest
    [coletado_em] to the earliest; it returns whenever the engine refuses
    neither the connection nor the query and the limit is not negative. *)
Theorem buscarReclamacoesDB_limite_ordem
    (emp : string) (limite : option Z) (m : Mundo) :
  let n := default 50 limite in
  buscarReclamacoesDB emp None m = buscarReclamacoesDB emp (Some 50) m
  ∧ limite_da_query None = 50
  ∧ match (buscarReclamacoesDB emp limite m).2 with
    | Retorno linhas =>
        Z.of_nat (length linhas) ≤ n
        ∧ Forall (λ l, col_empresa l = emp) linhas
        ∧ StronglySorted mais_recente linhas
        ∧ linhas ⊆ reclamacoes (banco m)
    | Excecao erro => ¬ sem_falhas 2 m ∨ n < 0
    end.
Proof.
  intros n. split; [reflexivity|]. split; [reflexivity|].
  unfold buscarReclamacoesDB. fold n. unfold liga.
  destruct (hd None (falhas (banco m))) as [e0|] eqn:F0.
  { rewrite (pool_connect_recusa _ e0) by done.
    left. intros [H _]%sem_falhas_S. congruence. }
  rewrite pool_connect_aceita by done. unfold tenta.
  destruct (hd None (falhas (banco (avanca m)))) as [e1|] eqn:F1.
  { rewrite (client_query_recusa _ _ e1) by done.
    left. intros [_ [H _]%sem_falhas_S]%sem_falhas_S. congruence. }
  rewrite client_query_aceita by done.
  destruct (decide (0 ≤ n)) as [Hn|Hn].
  - destruct (sql_select_por_empresa_linhas emp n
                (banco (avanca (avanca m))) Hn) as (linhas & -> & H).
    exact H.
  - unfold sql_select_por_empresa. rewrite bool_decide_eq_true_2 by lia.
    right. lia.
Qed.

(** ** The scheduler *)

Section Scheduler.

Variable emp : string.

(** [pararMonitoramento] as one case analysis on the registry. *)
Lemma pararMonitoramento_casos m :
  pararMonitoramento emp m
  = match jobsAtivos m !! emp with
    | Some jobInfo =>
        (com_jobsAtivos (delete emp (jobsAtivos m))
           (com_tarefas (alter para_tarefa (job jobInfo) (tarefas m)) m),
         Retorno true)
    | None => (m, Retorno false)
    end.
Proof.
  unfold pararMonitoramento, tenta. by destruct (jobsAtivos m !! emp).
Qed.

Lemma pararMonitoramento_banco m :
  banco (pararMonitoramento emp m).1 = banco m.
Proof. rewrite pararMonitoramento_casos. by destruct (jobsAtivos m !! emp). Qed.

Lemma pararMonitoramento_retorna m :
  (pararMonitoramento emp m).2
  = Retorno (bool_decide (is_Some (jobsAtivos m !! emp))).
Proof.
  rewrite pararMonitoramento_casos.
  by destruct (jobsAtivos m !! emp).
Qed.

(** [iniciarMonitoramento] when the interval maps to a cron string: the
    former job is stopped, a cycle is launched, a task with that string is
    registered and recorded under the company. *)
Lemma iniciarMonitoramento_agenda itv expr m :
  intervalParaCron itv = VString expr →
  let m0 := (pararMonitoramento emp m).1 in
  iniciarMonitoramento emp itv m
  = (com_jobsAtivos
       (<[emp := {| job := length (tarefas m0); intervalo := itv;
                    iniciado := hd 0 (relogio m0) |}]> (jobsAtivos m0))
       (com_relogio (tail (relogio m0))
          (com_tarefas
             (tarefas m0 ++
                [ {| expressao := expr; alvo := emp; rodando := true |} ])%list
             (com_ciclos (ciclos m0 ++ [emp])%list m0))),
     Retorno true).
Proof.
  intros He m0. unfold iniciarMonitoramento, tenta, liga.
  pose proof (pararMonitoramento_retorna m) as Hr.
  destruct (pararMonitoramento emp m) as [m0' r] eqn:Hp.
  cbn [snd] in Hr. subst r. subst m0. cbn [fst].
  rewrite He. reflexivity.
Qed.

(** [iniciarMonitoramento] when the interval maps to a value that is not a
    string: node-cron throws, after the former job was stopped and a cycle
    was launched, and no job is recorded. *)
Lemma iniciarMonitoramento_recusa itv m :
  (∀ expr, intervalParaCron itv ≠ VString expr) →
  let m0 := (pararMonitoramento emp m).1 in
  iniciarMonitoramento emp itv m
  = (com_console
       (console m0 ++
          [RegMensagem ("❌ Erro ao iniciar monitoramento para " +:+ emp +:+ ":")
             (message erro_padrao_cron)])%list
       (com_ciclos (ciclos m0 ++ [emp])%list m0),
     Excecao erro_padrao_cron).
Proof.
  intros He m0. unfold iniciarMonitoramento, tenta, liga.
  pose proof (pararMonitoramento_retorna m) as Hr.
  destruct (pararMonitoramento emp m) as [m0' r] eqn:Hp.
  cbn [snd] in Hr. subst r. subst m0. cbn [fst].
  destruct (intervalParaCron itv) as [expr| |]; [by destruct (He expr)|done..].
Qed.

(** [iniciarMonitoramento] leaves the database alone. *)
Lemma iniciarMonitoramento_banco itv m :
  banco (iniciarMonitoramento emp itv m).1 = banco m.
Proof.
  destruct (intervalParaCron itv) as [expr|nome|] eqn:He.
  - rewrite (iniciarMonitoramento_agenda _ expr) by done. cbn.
    apply pararMonitoramento_banco.
  - rewrite iniciarMonitoramento_recusa by (intros ?; congruence). cbn.
    apply pararMonitoramento_banco.
  - rewrite iniciarMonitoramento_recusa by (intros ?; congruence). cbn.
    apply pararMonitoramento_banco.
Qed.

End Scheduler.

(** A token that is neither a key of [conversoes] nor the name of an
    inherited property is mapped to the rule of '1h'. *)
Lemma intervalParaCron_desconhecido (itv : string) :
  propria (toLowerCase itv) = None →
  toLowerCase itv ∉ Object_prototype →
  intervalParaCron itv = intervalParaCron "1h".
Proof.
  intros Hp Hh. unfold intervalParaCron at 1, conversoes_get at 1.
  rewrite Hp, bool_decide_eq_false_2 by done. reflexivity.
Qed.

(** Two tokens with the same rule start the same task: they differ only in
    the label the registry keeps. *)
Lemma iniciarMonitoramento_mesma_regra (emp itv1 itv2 : string) (m : Mundo) :
  intervalParaCron itv1 = intervalParaCron itv2 →
  let m1 := (iniciarMonitoramento emp itv1 m).1 in
  let m2 := (iniciarMonitoramento emp itv2 m).1 in
  (iniciarMonitoramento emp itv1 m).2 = (iniciarMonitoramento emp itv2 m).2
  ∧ tarefas m1 = tarefas m2
  ∧ ciclos m1 = ciclos m2
  ∧ banco m1 = banco m2
  ∧ job <$> jobsAtivos m1 !! emp = job <$> jobsAtivos m2 !! emp.
Proof.
  intros He. destruct (intervalParaCron itv2) as [expr|nome|] eqn:E2.
  - rewrite (iniciarMonitoramento_agenda emp itv1 expr),
      (iniciarMonitoramento_agenda emp itv2 expr) by done.
    cbn. by rewrite !lookup_insert_eq.
  - rewrite !iniciarMonitoramento_recusa by (intros ?; congruence). done.
  - rewrite !iniciarMonitoramento_recusa by (intros ?; congruence). done.
Qed.

(** C3. The token 'garbage-token' is mapped to the rule of '1h', but the
    token 'constructor', which is no more in the vocabulary, is not:
    [conversoes] inherits a property of that name, a function, which the
    look-up returns in place of the fallback.  [iniciarMonitoramento] with
    '1h' registers the job; with 'constructor' it launches the first cycle,
    throws out of [cron.schedule] and registers nothing. *)
Theorem intervalParaCron_constructor :
  intervalParaCron "1h" = VString "0 * * * *"
  ∧ intervalParaCron "garbage-token" = VString "0 * * * *"
  ∧ propria (toLowerCase "constructor") = None
  ∧ intervalParaCron "constructor" = VObjeto "constructor"
  ∧ (iniciarMonitoramento "Acme" "1h" mundo_vazio).2 = Retorno true
  ∧ is_Some (jobsAtivos (iniciarMonitoramento "Acme" "1h" mundo_vazio).1 !! "Acme")
  ∧ (iniciarMonitoramento "Acme" "constructor" mundo_vazio).2
    = Excecao erro_padrao_cron
  ∧ jobsAtivos (iniciarMonitoramento "Acme" "constructor" mundo_vazio).1 !! "Acme"
    = None
  ∧ ciclos (iniciarMonitoramento "Acme" "constructor" mundo_vazio).1 = ["Acme"].
Proof. vm_compute. repeat split; by eexists. Qed.

(** ** The ledger and the routes *)

Section Ledger.

Variables emp itv : string.

Lemma sql_upsert_configuracao_registra b :
  registrado emp itv (sql_upsert_configuracao emp itv b).1.
Proof.
  unfold registrado, sql_upsert_configuracao.
  destruct (existsb _ _) eqn:E; cbn [fst configuracoes com_configuracoes].
  - apply existsb_exists in E as (c & Hc & He).
    apply bool_decide_eq_true in He.
    exists (atualiza_config emp itv (current_timestamp b) c). split.
    + apply list_elem_of_fmap. exists c. split; [done|].
      by apply list_elem_of_In.
    + unfold atualiza_config. by rewrite bool_decide_eq_true_2.
  - eexists. split; [apply elem_of_app; right; by apply list_elem_of_singleton|].
    done.
Qed.

(** The three ways [salvarConfiguracao] ends. *)
Lemma salvarConfiguracao_sem_conexao m erro :
  hd None (falhas (banco m)) = Some erro →
  salvarConfiguracao emp itv m = (avanca m, Excecao erro).
Proof.
  intros H. unfold salvarConfiguracao, liga. by rewrite (pool_connect_recusa _ erro).
Qed.

Lemma salvarConfiguracao_recusada m erro :
  hd None (falhas (banco m)) = None →
  hd None (falhas (banco (avanca m))) = Some erro →
  salvarConfiguracao emp itv m
  = (com_console
       (console m ++ [RegErro "❌ Erro ao salvar configuração:" erro])%list
       (avanca (avanca m)),
     Excecao erro).
Proof.
  intros H0 H1. unfold salvarConfiguracao, liga, tenta.
  rewrite pool_connect_aceita by done.
  by rewrite (client_query_recusa _ _ erro).
Qed.

Lemma salvarConfiguracao_gravada m :
  hd None (falhas (banco m)) = None →
  hd None (falhas (banco (avanca m))) = None →
  salvarConfiguracao emp itv m
  = (com_banco (sql_upsert_configuracao emp itv (banco (avanca (avanca m)))).1
       (avanca (avanca m)),
     Retorno tt).
Proof.
  intros H0 H1. unfold salvarConfiguracao, liga, tenta.
  rewrite pool_connect_aceita by done.
  rewrite client_query_aceita by done.
  unfold sql_upsert_configuracao. by destruct (existsb _ _).
Qed.

(** [salvarConfiguracao] touches neither the registry, nor the tasks, nor
    the cycles; it leaves the ledger as it was when it throws, and with the
    row of the company when it returns. *)
Lemma salvarConfiguracao_efeito m :
  ∃ m1 r1,
    salvarConfiguracao emp itv m = (m1, r1)
    ∧ jobsAtivos m1 = jobsAtivos m
    ∧ tarefas m1 = tarefas m
    ∧ ciclos m1 = ciclos m
    ∧ match r1 with
      | Excecao _ => configuracoes (banco m1) = configuracoes (banco m)
      | Retorno _ => registrado emp itv (banco m1)
      end.
Proof.
  destruct (hd None (falhas (banco m))) as [e0|] eqn:H0.
  { rewrite (salvarConfiguracao_sem_conexao _ e0) by done.
    by eexists _, _. }
  destruct (hd None (falhas (banco (avanca m)))) as [e1|] eqn:H1.
  { rewrite (salvarConfiguracao_recusada _ e1) by done.
    by eexists _, _. }
  rewrite salvarConfiguracao_gravada by done.
  eexists _, _. split; [reflexivity|]. repeat split.
  apply sql_upsert_configuracao_registra.
Qed.

End Ledger.

(** C6. For a request that names the company and the interval, the route
    first runs [salvarConfiguracao], which installs nothing.  When that
    throws, the ledger is as it was, the route answers 500 with the message
    of the storage error, and [iniciarMonitoramento] is not run: registry,
    tasks and cycles are those of before the request.  When it returns, the
    ledger holds the active row (company, interval) and only then
    [iniciarMonitoramento] runs, from that state and without touching the
    database. *)
Theorem post_monitoramento_iniciar_grava_antes
    (emp itv : string) (m : Mundo)
    (Hemp : emp ≠ "") (Hitv : itv ≠ "") :
  ∃ m1 r1,
    salvarConfiguracao emp itv m = (m1, r1)
    ∧ jobsAtivos m1 = jobsAtivos m
    ∧ tarefas m1 = tarefas m
    ∧ ciclos m1 = ciclos m
    ∧ match r1 with
      | Excecao erro =>
          configuracoes (banco m1) = configuracoes (banco m)
          ∧ post_monitoramento_iniciar (Some emp) (Some itv) m
            = (com_console
                 (console m1 ++ [RegErro "Erro ao iniciar monitoramento:" erro])%list
                 m1,
               Retorno (resposta_erro_iniciar erro))
      | Retorno _ =>
          registrado emp itv (banco m1)
          ∧ banco (post_monitoramento_iniciar (Some emp) (Some itv) m).1
            = banco m1
          ∧ post_monitoramento_iniciar (Some emp) (Some itv) m
            = match iniciarMonitoramento emp itv m1 with
              | (m2, Retorno _) => (m2, Retorno (resposta_iniciado emp itv))
              | (m2, Excecao erro) =>
                  (com_console
                     (console m2 ++ [RegErro "Erro ao iniciar monitoramento:" erro])%list
                     m2,
                   Retorno (resposta_erro_iniciar erro))
              end
      end.
Proof.
  destruct (salvarConfiguracao_efeito emp itv m)
    as (m1 & r1 & Hs & Hj & Ht & Hc & Hr).
  exists m1, r1. repeat (split; [done|]).
  assert (ausente (Some emp) || ausente (Some itv) = false) as Ha.
  { unfold ausente, truthy. by rewrite !bool_decide_eq_false_2. }
  unfold post_monitoramento_iniciar. rewrite Ha.
  change (default "" (Some emp)) with emp.
  change (default "" (Some itv)) with itv.
  unfold tenta, liga. rewrite Hs.
  destruct r1 as [[]|erro]; [|done].
  split; [done|].
  pose proof (iniciarMonitoramento_banco emp itv m1) as Hb.
  destruct (iniciarMonitoramento emp itv m1) as [m2 [b|erro]]; by split.
Qed.

Lemma post_monitoramento_iniciar_grava_antes_witness :
  post_monitoramento_iniciar (Some "Acme") (Some "30min")
    (com_falhas_no_mundo [None; Some erro_conexao] mundo_vazio)
  = (com_console
       [RegErro "❌ Erro ao salvar configuração:" erro_conexao;
        RegErro "Erro ao iniciar monitoramento:" erro_conexao]
       mundo_vazio,
     Retorno (resposta_erro_iniciar erro_conexao))
  ∧ registrado "Acme" "30min"
      (banco (post_monitoramento_iniciar (Some "Acme") (Some "30min")
                mundo_vazio).1).
Proof.
  split.
  - destruct (post_monitoramento_iniciar_grava_antes "Acme" "30min"
                (com_falhas_no_mundo [None; Some erro_conexao] mundo_vazio)
                ltac:(discriminate) ltac:(discriminate))
      as (m1 & r1 & Hs & _ & _ & _ & Hr).
    vm_compute in Hs. injection Hs as <- <-.
    destruct Hr as [_ ->]. reflexivity.
  - destruct (post_monitoramento_iniciar_grava_antes "Acme" "30min" mundo_vazio
                ltac:(discriminate) ltac:(discriminate))
      as (m1 & r1 & Hs & _ & _ & _ & Hr).
    vm_compute in Hs. injection Hs as <- <-.
    destruct Hr as (Hreg & -> & _). exact Hreg.
Defined.

(** C7. [pararMonitoramento] leaves the database, hence every row of the
    ledger, as it was.  It returns whether the registry held a job for the
    company, removes that entry and stops its task, and changes no task
    when there was none.  The route POST /api/monitoramento/parar does
    nothing more to the database, whatever its body. *)
Theorem pararMonitoramento_preserva_ledger
    (emp : string) (body_empresa : option string) (m : Mundo) :
  banco (pararMonitoramento emp m).1 = banco m
  ∧ (pararMonitoramento emp m).2
    = Retorno (bool_decide (is_Some (jobsAtivos m !! emp)))
  ∧ jobsAtivos (pararMonitoramento emp m).1 = delete emp (jobsAtivos m)
  ∧ tarefas (pararMonitoramento emp m).1
    = match jobsAtivos m !! emp with
      | Some jobInfo => alter para_tarefa (job jobInfo) (tarefas m)
      | None => tarefas m
      end
  ∧ banco (post_monitoramento_parar body_empresa m).1 = banco m.
Proof.
  split; [apply pararMonitoramento_banco|].
  split; [apply pararMonitoramento_retorna|].
  split; [|split].
  - rewrite pararMonitoramento_casos.
    destruct (jobsAtivos m !! emp) eqn:E; [done|]. cbn.
    symmetry. by apply delete_id.
  - rewrite pararMonitoramento_casos. by destruct (jobsAtivos m !! emp).
  - unfold post_monitoramento_parar, tenta, liga.
    destruct (ausente body_empresa); [done|].
    pose proof (pararMonitoramento_banco (default "" body_empresa) m) as Hb.
    pose proof (pararMonitoramento_retorna (default "" body_empresa) m) as Hr.
    destruct (pararMonitoramento _ m) as [m' r]. cbn in Hr. by subst r.
Qed.

(** ** The model at work *)

Example trim_exemplos :
  trim "  Produto não entregue " = "Produto não entregue"
  ∧ trim (String (ascii_of_nat 194) (String (ascii_of_nat 160) " ")) = ""
  ∧ trim "" = ""
  ∧ trim "a  b" = "a  b".
Proof. vm_compute. done. Qed.

Example id_do_href_exemplos :
  id_do_href (Some "/acme/produto-nao-entregue_123456") = Some "produto-nao-entregue_123456"
  ∧ id_do_href (Some "/acme/") = None
  ∧ id_do_href (Some "123") = Some "123"
  ∧ id_do_href None = None.
Proof. vm_compute. done. Qed.

Example intervalParaCron_vocabulario :
  (intervalParaCron <$>
     ["10min"; "30MIN"; "1h"; "3H"; "6h"; "12h"; "Diario"; "1d"; "SEMANAL"; "1w"])
  = (VString <$>
       ["*/10 * * * *"; "*/30 * * * *"; "0 * * * *"; "0 */3 * * *";
        "0 */6 * * *"; "0 */12 * * *"; "0 9 * * *"; "0 9 * * *";
        "0 9 * * 1"; "0 9 * * 1"]).
Proof. vm_compute. done. Qed.

(** A page with a full card, a card without title and a bare card. *)
Example buscarReclamacoes_exemplo :
  (buscarReclamacoes "Acme"
     (com_relogio [5000; 5001; 5002]
        (com_rede
           [Resolve
              [ {| texto_titulo := " Produto não entregue ";
                   texto_descricao := "Comprei e não chegou";
                   texto_status := "Não respondida";
                   texto_data := "02/11/2026";
                   texto_local := "São Paulo - SP";
                   href := Some "/acme/produto-nao-entregue_123456" |};
                {| texto_titulo := "   ";
                   texto_descricao := "texto";
                   texto_status := "Respondida";
                   texto_data := "01/11/2026";
                   texto_local := "Recife - PE";
                   href := Some "/acme/sem-titulo_1" |};
                {| texto_titulo := "Cobrança indevida";
                   texto_descricao := "";
                   texto_status := "";
                   texto_data := "";
                   texto_local := "";
                   href := None |} ]]
           mundo_vazio))).2
  = Retorno
      [ {| id := Some "produto-nao-entregue_123456";
           titulo := "Produto não entregue";
           descricao := "Comprei e não chegou";
           status := "Não respondida";
           data := DataTexto "02/11/2026";
           local := "São Paulo - SP";
           empresa := "Acme";
           link := Some "https://www.reclameaqui.com.br/reclamacao/produto-nao-entregue_123456";
           coletadoEm := 5000 |};
        {| id := None;
           titulo := "Cobrança indevida";
           descricao := "Sem descrição";
           status := "Não informado";
           data := DataISO 5001;
           local := "Não informado";
           empresa := "Acme";
           link := None;
           coletadoEm := 5002 |} ].
Proof. vm_compute. done. Qed.

(** Registering 'Example Co' every 30 minutes: the ledger row, the first
    cycle, and the task armed with the rule of '30min'. *)
Example post_monitoramento_iniciar_exemplo :
  let r := post_monitoramento_iniciar (Some "Example Co") (Some "30min")
             (com_relogio [7000] mundo_vazio) in
  r.2 = Retorno (resposta_iniciado "Example Co" "30min")
  ∧ configuracoes (banco r.1)
    = [ {| cfg_empresa := "Example Co"; cfg_intervalo := "30min"; ativo := true;
           criado_em := 0; atualizado_em := 0 |} ]
  ∧ ciclos r.1 = ["Example Co"]
  ∧ tarefas r.1
    = [ {| expressao := "*/30 * * * *"; alvo := "Example Co"; rodando := true |} ]
  ∧ jobsAtivos r.1 !! "Example Co"
    = Some {| job := 0; intervalo := "30min"; iniciado := 7000 |}.
Proof. vm_compute. done. Qed.

(** A cycle whose page has one card saves one row; the next cycle, on the
    same page, saves none. *)
Example executarMonitoramento_exemplo :
  let pagina :=
    Resolve [ {| texto_titulo := "Produto não entregue";
                 texto_descricao := ""; texto_status := ""; texto_data := "";
                 texto_local := "";
                 href := Some "/acme/produto-nao-entregue_123456" |} ] in
  let m1 := (executarMonitoramento "Acme"
               (com_rede [pagina; pagina] mundo_vazio)).1 in
  let m2 := (executarMonitoramento "Acme" m1).1 in
  length (reclamacoes (banco m1)) = 1%nat
  ∧ reclamacoes (banco m2) = reclamacoes (banco m1)
  ∧ console m2 = [].
Proof. vm_compute. done. Qed.


(** * Further properties *)

(** ** Saving a batch *)

Lemma so_banco_e_console_refl m : so_banco_e_console m m.
Proof. by destruct m. Qed.

Lemma so_banco_e_console_trans m1 m2 m3 :
  so_banco_e_console m1 m2 → so_banco_e_console m2 m3 →
  so_banco_e_console m1 m3.
Proof. unfold so_banco_e_console. intros -> ->. by destruct m1. Qed.

Lemma so_banco_e_console_avanca m : so_banco_e_console m (avanca m).
Proof. by destruct m. Qed.

(** One turn of the loop, with everything it changes: it consumes one
    verdict; it leaves the rows or adds the row of its record; it adds one
    to a counter or writes one message. *)
Lemma salva_uma_efeito r c m :
  ∃ m' c' logs,
    salva_uma r c m = (m', Retorno c')
    ∧ so_banco_e_console m m'
    ∧ configuracoes (banco m') = configuracoes (banco m)
    ∧ falhas (banco m') = tail (falhas (banco m))
    ∧ console m' = (console m ++ logs)%list
    ∧ (salvos c' + duplicados c' + length logs
       = S (salvos c + duplicados c))%nat.
Proof.
  destruct (hd None (falhas (banco m))) as [erro|] eqn:H.
  - destruct (decide (code erro = Some "23505")) as [E|E].
    + rewrite (salva_uma_duplicata _ _ _ _ H E). eexists _, _, [].
      split; [reflexivity|]. rewrite app_nil_r. cbn.
      split_and!; first [done | lia | by destruct m].
    + rewrite (salva_uma_erro _ _ _ _ H E). eexists _, _, [_].
      split; [reflexivity|]. cbn.
      split_and!; first [done | lia | by destruct m].
  - rewrite (salva_uma_aceita _ _ _ H). eexists _, _, [].
    split; [reflexivity|]. rewrite app_nil_r.
    unfold sql_insert_reclamacao. destruct (conflita _ _); cbn;
      (split_and!; first [done | lia | by destruct m]).
Qed.

Lemma laco_salvar_efeito lote : ∀ c m,
  ∃ m' c' logs,
    laco_salvar lote c m = (m', Retorno c')
    ∧ so_banco_e_console m m'
    ∧ configuracoes (banco m') = configuracoes (banco m)
    ∧ falhas (banco m') = drop (length lote) (falhas (banco m))
    ∧ console m' = (console m ++ logs)%list
    ∧ (salvos c' + duplicados c' + length logs
       = salvos c + duplicados c + length lote)%nat.
Proof.
  induction lote as [|r lote IH]; intros c m.
  { exists m, c, []. rewrite app_nil_r. cbn.
    split_and!; first [done | lia | apply so_banco_e_console_refl]. }
  cbn [laco_salvar]. unfold liga.
  destruct (salva_uma_efeito r c m) as (m1 & c1 & l1 & -> & F1 & G1 & V1 & L1 & N1).
  destruct (IH c1 m1) as (m' & c' & l2 & -> & F2 & G2 & V2 & L2 & N2).
  exists m', c', (l1 ++ l2)%list. split; [done|].
  split; [by eapply so_banco_e_console_trans|].
  split; [congruence|]. split.
  { rewrite V2, V1. destruct (falhas (banco m)); cbn; by rewrite ?drop_nil. }
  split; [by rewrite L2, L1, app_assoc|].
  rewrite length_app. cbn [length]. lia.
Qed.

(** X1. Every record of a batch is accounted for once.  When the client is
    obtained, [salvarReclamacoesDB] returns; it has sent one query for each
    record, and the records counted as saved, those counted as duplicates
    and the error messages written add up to the size of the batch; nothing
    but the table of complaints, the console and the verdicts consumed has
    changed.  When the client is refused, it throws that very error and no
    query is sent. *)
Theorem salvarReclamacoesDB_contabiliza (lote : list Reclamacao) (m : Mundo) :
  match salvarReclamacoesDB lote m with
  | (m', Retorno c) =>
      hd None (falhas (banco m)) = None
      ∧ falhas (banco m') = drop (S (length lote)) (falhas (banco m))
      ∧ so_banco_e_console m m'
      ∧ configuracoes (banco m') = configuracoes (banco m)
      ∧ ∃ logs,
          console m' = (console m ++ logs)%list
          ∧ (salvos c + duplicados c + length logs = length lote)%nat
  | (m', Excecao erro) =>
      hd None (falhas (banco m)) = Some erro ∧ m' = avanca m
  end.
Proof.
  destruct (hd None (falhas (banco m))) as [erro|] eqn:H.
  { by rewrite (salvarReclamacoesDB_desconectado _ _ erro). }
  rewrite salvarReclamacoesDB_conectado by done.
  destruct (laco_salvar_efeito lote {| salvos := 0; duplicados := 0 |} (avanca m))
    as (m' & c' & logs & -> & F & G & V & L & N).
  split; [done|]. split.
  { rewrite V, falhas_avanca. destruct (falhas (banco m)); cbn; by rewrite ?drop_nil. }
  split; [eapply so_banco_e_console_trans; [apply so_banco_e_console_avanca|done]|].
  split; [done|]. exists logs. split; [done|]. cbn in N. lia.
Qed.

(** *** The unique key *)

Lemma mesma_chave_sym a b : mesma_chave a b = mesma_chave b a.
Proof.
  unfold mesma_chave. destruct (id_externo a), (id_externo b); try done.
  f_equal; apply bool_decide_ext; split; congruence.
Qed.

Lemma conflita_false l t a :
  conflita l t = false → a ∈ t → mesma_chave l a = false.
Proof.
  intros Hc Ha. destruct (mesma_chave l a) eqn:E; [|done].
  assert (conflita l t = true); [|congruence].
  apply existsb_exists. exists a. split; [by apply list_elem_of_In|done].
Qed.

Lemma conflita_true l t :
  conflita l t = true → ∃ a, a ∈ t ∧ mesma_chave l a = true.
Proof.
  intros (a & Ha & E)%existsb_exists. exists a. split; [|done].
  by apply list_elem_of_In.
Qed.

(** A row that collides with none can join a table without breaking the
    unique key. *)
Lemma chaves_unicas_snoc t l :
  chaves_unicas t → conflita l t = false → chaves_unicas (t ++ [l]).
Proof.
  intros Hu Hc i j a b Hi Hj Hab.
  apply lookup_snoc_Some in Hi as [[Hi Ha]|[-> <-]];
    apply lookup_snoc_Some in Hj as [[Hj Hb]|[-> <-]].
  - by eapply Hu.
  - exfalso. rewrite mesma_chave_sym in Hab.
    rewrite (conflita_false _ _ _ Hc) in Hab; [done|].
    by eapply list_elem_of_lookup_2.
  - exfalso. rewrite (conflita_false _ _ _ Hc) in Hab; [done|].
    by eapply list_elem_of_lookup_2.
  - done.
Qed.

(** What holds of the table and survives the arrival of a row that
    collides with none, holds after the loop. *)
Lemma laco_salvar_invariante (P : list LinhaReclamacao → Prop) lote :
  (∀ t l, P t → conflita l t = false → P (t ++ [l])%list) →
  ∀ c m, P (reclamacoes (banco m)) →
         P (reclamacoes (banco (laco_salvar lote c m).1)).
Proof.
  intros HP. induction lote as [|r lote IH]; intros c m H; [done|].
  cbn [laco_salvar]. unfold liga.
  destruct (salva_uma_total r c m) as (m1 & c1 & -> & _ & Hl).
  apply IH. destruct Hl as [->|[Hc ->]]; [done|]. by apply HP.
Qed.

(** X2. [salvarReclamacoesDB] keeps the unique key of the table: when no two
    stored rows share a key (external id, company), none do after a batch
    is saved, whatever the batch holds (records of one key among them) and
    whatever the engine answers. *)
Theorem salvarReclamacoesDB_chaves_unicas (lote : list Reclamacao) (m : Mundo)
    (Hu : chaves_unicas (reclamacoes (banco m))) :
  chaves_unicas (linhas_apos lote m).
Proof.
  unfold linhas_apos.
  destruct (hd None (falhas (banco m))) as [erro|] eqn:H.
  { by rewrite (salvarReclamacoesDB_desconectado _ _ erro). }
  rewrite salvarReclamacoesDB_conectado by done.
  by apply laco_salvar_invariante; [apply chaves_unicas_snoc|].
Qed.

Lemma salvarReclamacoesDB_chaves_unicas_witness :
  chaves_unicas
    (linhas_apos [reclamacao_exemplo; reclamacao_sem_id; reclamacao_exemplo]
       mundo_vazio).
Proof.
  apply (salvarReclamacoesDB_chaves_unicas
           [reclamacao_exemplo; reclamacao_sem_id; reclamacao_exemplo]
           mundo_vazio).
  intros i j a b Hi. by destruct i.
Defined.

(** *** Saving, then querying *)

Lemma sem_falhas_drop j k m m' :
  sem_falhas (j + k) m →
  falhas (banco m') = drop j (falhas (banco m)) →
  sem_falhas k m'.
Proof.
  unfold sem_falhas. intros H ->.
  rewrite <- take_take_drop in H. by apply Forall_app in H as [_ ?].
Qed.

Lemma sem_falhas_menos j k m : (j ≤ k)%nat → sem_falhas k m → sem_falhas j m.
Proof.
  unfold sem_falhas. intros Hjk H.
  replace k with (j + (k - j))%nat in H by lia.
  rewrite <- take_take_drop in H. by apply Forall_app in H as [? _].
Qed.

(** While the engine refuses nothing, every record of the batch ends up
    represented by a row with its identifier and its company: its own row,
    or the row that held its key. *)
Lemma laco_salvar_sem_falhas_guarda lote : ∀ c m,
  sem_falhas (length lote) m →
  Forall (λ r, ∃ row, row ∈ reclamacoes (banco (laco_salvar lote c m).1)
                      ∧ id_externo row = id r ∧ col_empresa row = empresa r)
    lote.
Proof.
  induction lote as [|r lote IH]; intros c m H; [constructor|].
  apply sem_falhas_S in H as [H0 H].
  cbn [laco_salvar]. unfold liga. rewrite salva_uma_aceita by done.
  set (m1 := com_banco _ _). set (c1 := Build_Contagem _ _).
  constructor.
  - destruct (laco_salvar_linhas lote c1 m1) as (m' & c' & novas & -> & Hn & _).
    cbn [fst]. rewrite Hn.
    assert (∃ row, row ∈ reclamacoes (banco m1)
                   ∧ id_externo row = id r ∧ col_empresa row = empresa r)
      as (row & Hrow & Hk).
    { unfold m1, sql_insert_reclamacao. rewrite reclamacoes_avanca.
      destruct (conflita (linha_de r) (reclamacoes (banco m))) eqn:C; cbn.
      - apply conflita_true in C as (a & Ha & E). exists a. split; [done|].
        unfold mesma_chave in E. cbn in E.
        destruct (id r) as [x|], (id_externo a) as [y|]; try done.
        apply andb_true_iff in E as [E1 E2].
        apply bool_decide_eq_true in E1, E2. by subst.
      - exists (linha_de r). split; [|done].
        apply elem_of_app. right. by apply list_elem_of_singleton. }
    exists row. split; [|done]. apply elem_of_app. by left.
  - apply IH. unfold sem_falhas in *.
    assert (falhas (banco m1) = falhas (banco (avanca m))) as ->; [|done].
    unfold m1, sql_insert_reclamacao. by destruct (conflita _ _).
Qed.

(** The query, when the engine refuses nothing and the limit is not
    negative. *)
Lemma buscarReclamacoesDB_sem_falhas emp n m :
  sem_falhas 2 m → 0 ≤ n →
  (buscarReclamacoesDB emp (Some n) m).2
  = Retorno
      (take (Z.to_nat n)
         (merge_sort mais_recente
            (filter (λ l, col_empresa l = emp) (reclamacoes (banco m))))).
Proof.
  intros [H0 [H1 _]%sem_falhas_S]%sem_falhas_S Hn.
  unfold buscarReclamacoesDB, liga, tenta.
  change (default 50 (Some n)) with n.
  rewrite pool_connect_aceita by done.
  rewrite client_query_aceita by done.
  unfold sql_select_por_empresa. by rewrite bool_decide_eq_false_2 by lia.
Qed.

(** X3. What is saved is found.  When the engine refuses nothing, every
    record of a batch that was saved is represented among the rows
    [buscarReclamacoesDB] then returns for its company, by a row with its
    external identifier, provided the limit is not below the number of rows
    stored. *)
Theorem salvar_depois_buscar
    (lote : list Reclamacao) (r : Reclamacao) (m : Mundo) (n : Z)
    (Hr : r ∈ lote)
    (Hok : sem_falhas (S (length lote) + 2) m)
    (Hn : Z.of_nat (length (linhas_apos lote m)) ≤ n) :
  ∃ linhas row,
    (buscarReclamacoesDB (empresa r) (Some n) (salvarReclamacoesDB lote m).1).2
    = Retorno linhas
    ∧ row ∈ linhas
    ∧ id_externo row = id r
    ∧ col_empresa row = empresa r.
Proof.
  assert (sem_falhas (S (length lote)) m) as Hok1.
  { eapply sem_falhas_menos; [|exact Hok]. lia. }
  pose proof Hok1 as [H0 Hok0]%sem_falhas_S.
  pose proof (laco_salvar_sem_falhas_guarda lote
                {| salvos := 0; duplicados := 0 |} (avanca m) Hok0) as Hg.
  unfold linhas_apos in Hn.
  rewrite salvarReclamacoesDB_conectado in Hn |- * by done.
  destruct (laco_salvar_efeito lote {| salvos := 0; duplicados := 0 |} (avanca m))
    as (m1 & c1 & logs & E & _ & _ & Hf & _).
  rewrite E in *. cbn [fst] in *.
  rewrite Forall_forall in Hg. destruct (Hg r Hr) as (row & Hrow & Hid & He).
  rewrite buscarReclamacoesDB_sem_falhas; [| |lia].
  2:{ apply (sem_falhas_drop (S (length lote)) 2 m); [done|].
      rewrite Hf, falhas_avanca.
      destruct (falhas (banco m)); cbn; by rewrite ?drop_nil. }
  eexists _, row. split; [reflexivity|]. split; [|done].
  rewrite take_ge.
  - rewrite merge_sort_Permutation. by apply list_elem_of_filter.
  - rewrite merge_sort_Permutation. etrans; [apply length_filter|]. lia.
Qed.

Lemma salvar_depois_buscar_witness :
  ∃ linhas row,
    (buscarReclamacoesDB (empresa reclamacao_sem_id) (Some 50)
       (salvarReclamacoesDB [reclamacao_exemplo; reclamacao_sem_id] mundo_vazio).1).2
    = Retorno linhas
    ∧ row ∈ linhas
    ∧ id_externo row = id reclamacao_sem_id
    ∧ col_empresa row = empresa reclamacao_sem_id.
Proof.
  apply (salvar_depois_buscar [reclamacao_exemplo; reclamacao_sem_id]
           reclamacao_sem_id mundo_vazio 50).
  - apply list_elem_of_In. cbn. auto.
  - vm_compute. constructor.
  - vm_compute. discriminate.
Defined.

(** ** The other queries *)

(** The shape the query functions of database.js share: a client, then one
    statement inside [try], whose failure is written to the console and
    thrown again. *)
Lemma consulta_protegida {A} (stmt : Banco → Banco * Resultado A) texto m :
  (pool_connect;;;
   tenta (client_query stmt)
     (λ erro, console_error (RegErro texto erro);;; lanca erro)) m
  = match hd None (falhas (banco m)) with
    | Some e => (avanca m, Excecao e)
    | None =>
        match hd None (falhas (banco (avanca m))) with
        | Some e =>
            (com_console (console m ++ [RegErro texto e])%list (avanca (avanca m)),
             Excecao e)
        | None =>
            let r := stmt (banco (avanca (avanca m))) in
            match r.2 with
            | Retorno a => (com_banco r.1 (avanca (avanca m)), Retorno a)
            | Excecao e =>
                (com_console (console m ++ [RegErro texto e])%list
                   (com_banco r.1 (avanca (avanca m))),
                 Excecao e)
            end
        end
    end.
Proof.
  unfold liga at 1.
  destruct (hd None (falhas (banco m))) as [e0|] eqn:H0.
  { by rewrite (pool_connect_recusa _ e0). }
  rewrite pool_connect_aceita by done. unfold tenta.
  destruct (hd None (falhas (banco (avanca m)))) as [e1|] eqn:H1.
  { by rewrite (client_query_recusa _ _ e1). }
  rewrite client_query_aceita by done. cbv zeta.
  by destruct (stmt (banco (avanca (avanca m)))) as [b [a|e]].
Qed.

Lemma sem_falhas_2 m :
  sem_falhas 2 m
  ↔ hd None (falhas (banco m)) = None
    ∧ hd None (falhas (banco (avanca m))) = None.
Proof.
  unfold sem_falhas. rewrite falhas_avanca.
  destruct (falhas (banco m)) as [|f0 [|f1 fs]]; cbn.
  - split; [done|]. constructor.
  - rewrite Forall_singleton. tauto.
  - rewrite !Forall_cons, Forall_nil. tauto.
Qed.

(** [if (filtros.empresa)], [if (filtros.status)]: the condition a text
    adds to the WHERE clause. *)
Lemma texto_dado (o : option string) (x : string) :
  match filtro_texto o with
  | Some e => bool_decide (x = e)
  | None => true
  end = true
  ↔ match o with
    | Some e => e ≠ "" → x = e
    | None => True
    end.
Proof.
  destruct o as [e|]; cbn; [|done]. unfold truthy.
  destruct (decide (e = "")) as [->|He].
  - cbn. split; [intros _ H|]; done.
  - rewrite (bool_decide_eq_false_2 (e = "")) by done. cbn.
    rewrite bool_decide_eq_true. split; auto.
Qed.

Lemma satisfaz_atende f l : satisfaz f l = true ↔ atende f l.
Proof.
  unfold satisfaz, atende. rewrite !andb_true_iff, !texto_dado.
  destruct (dataInicio f) as [t1|], (dataFim f) as [t2|];
    rewrite ?bool_decide_eq_true; tauto.
Qed.

Lemma filter_satisfaz f (t : list LinhaReclamacao) :
  filter (λ l, satisfaz f l = true) t = filter (atende f) t.
Proof. apply list_filter_iff. intros l. apply satisfaz_atende. Qed.

(** The rows the filtered SELECT gives. *)
Lemma sql_select_filtrado_atende f b :
  (sql_select_filtrado f b).1 = b
  ∧ match (sql_select_filtrado f b).2 with
    | Retorno linhas =>
        Forall (atende f) linhas
        ∧ StronglySorted mais_recente linhas
        ∧ linhas ⊆+ reclamacoes b
        ∧ match filtro_limite f with
          | Some 0 | None => linhas ≡ₚ filter (atende f) (reclamacoes b)
          | Some n =>
              length linhas
              = (Z.to_nat n `min` length (filter (atende f) (reclamacoes b)))%nat
          end
    | Excecao erro => ∃ n, filtro_limite f = Some n ∧ n < 0
    end.
Proof.
  unfold sql_select_filtrado. rewrite filter_satisfaz.
  set (todas := merge_sort mais_recente _).
  assert (StronglySorted mais_recente todas) as Hs
    by (apply StronglySorted_merge_sort; apply _).
  assert (todas ≡ₚ filter (atende f) (reclamacoes b)) as Hp
    by apply merge_sort_Permutation.
  assert (Forall (atende f) todas) as Hf.
  { rewrite Hp. apply Forall_forall. intros l Hl.
    by apply list_elem_of_filter in Hl as [? _]. }
  assert (todas ⊆+ reclamacoes b) as Hsub.
  { rewrite Hp. apply sublist_submseteq, sublist_filter. }
  assert (∀ n, filtro_limite f = Some n → n ≠ 0 →
               filtro_numero (filtro_limite f) = Some n) as Hn.
  { intros n -> H0. cbn. by rewrite bool_decide_eq_false_2. }
  destruct (filtro_limite f) as [n|]; [|by cbn].
  destruct (decide (n = 0)) as [->|H0]; [by cbn|].
  rewrite (Hn n) by done.
  destruct (decide (n < 0)) as [Hneg|Hneg].
  { rewrite bool_decide_eq_true_2 by done. cbn. eauto. }
  rewrite bool_decide_eq_false_2 by done. cbn [fst snd].
  split; [done|]. split_and!.
  - by apply Forall_take.
  - by apply StronglySorted_take.
  - etrans; [apply submseteq_take|done].
  - destruct n as [|p|p]; [done| |lia].
    rewrite length_take. by rewrite Hp.
Qed.

(** X4. [buscarTodasReclamacoes] writes no complaint row.  The rows it
    returns are stored rows, none more often than it is stored; each has the
    company and the status asked for, when these are given and are not the
    empty text, and a [coletado_em] within the two bounds given, these
    included; they come from the latest [coletado_em] to the earliest.
    With no limit, and with limit 0, which the code takes for no limit,
    they are all the stored rows that meet the filters; with another limit
    they are that many, or all that meet the filters when these are fewer.
    It throws only when the engine refuses the connection or the query, or
    the limit is negative. *)
Theorem buscarTodasReclamacoes_filtra (f : Filtros) (m : Mundo) :
  reclamacoes (banco (buscarTodasReclamacoes f m).1) = reclamacoes (banco m)
  ∧ match (buscarTodasReclamacoes f m).2 with
    | Retorno linhas =>
        Forall (atende f) linhas
        ∧ StronglySorted mais_recente linhas
        ∧ linhas ⊆+ reclamacoes (banco m)
        ∧ match filtro_limite f with
          | Some 0 | None =>
              linhas ≡ₚ filter (atende f) (reclamacoes (banco m))
          | Some n =>
              length linhas
              = (Z.to_nat n
                 `min` length (filter (atende f) (reclamacoes (banco m))))%nat
          end
    | Excecao erro =>
        ¬ sem_falhas 2 m ∨ ∃ n, filtro_limite f = Some n ∧ n < 0
    end.
Proof.
  unfold buscarTodasReclamacoes. rewrite consulta_protegida.
  destruct (hd None (falhas (banco m))) as [e0|] eqn:H0.
  { split; [done|]. left. rewrite sem_falhas_2. intros [? ?]. congruence. }
  destruct (hd None (falhas (banco (avanca m)))) as [e1|] eqn:H1.
  { split; [done|]. left. rewrite sem_falhas_2. intros [? ?]. congruence. }
  cbv zeta.
  destruct (sql_select_filtrado_atende f (banco (avanca (avanca m)))) as [Hb H].
  destruct (sql_select_filtrado f (banco (avanca (avanca m)))) as [b [linhas|e]];
    cbn [fst snd] in *; subst b; (split; [done|]); [done|by right].
Qed.

(** X5. With a company that is not the empty text and a limit that is not
    0, [buscarTodasReclamacoes] with these two filters alone and
    [buscarReclamacoesDB] answer alike: both throw, the same error, or both
    return rows of the company with the same [coletado_em], one by one; and
    when no two stored rows of the company were collected at the same
    instant, the same rows. *)
Theorem buscarTodasReclamacoes_por_empresa
    (emp : string) (n : Z) (m : Mundo)
    (Hemp : emp ≠ "") (Hn : n ≠ 0) :
  match (buscarTodasReclamacoes
           {| filtro_empresa := Some emp; filtro_status := None;
              dataInicio := None; dataFim := None; filtro_limite := Some n |}
           m).2,
        (buscarReclamacoesDB emp (Some n) m).2 with
  | Retorno todas, Retorno da_empresa =>
      coletado_em <$> todas = coletado_em <$> da_empresa
      ∧ Forall (λ l, col_empresa l = emp) todas
      ∧ todas ⊆+ reclamacoes (banco m)
      ∧ (tempos_distintos emp (banco m) → todas = da_empresa)
  | Excecao e1, Excecao e2 => e1 = e2
  | _, _ => False
  end.
Proof.
  unfold buscarTodasReclamacoes, buscarReclamacoesDB.
  change (default 50 (Some n)) with n. rewrite !consulta_protegida.
  destruct (hd None (falhas (banco m))) as [e0|]; [done|].
  destruct (hd None (falhas (banco (avanca m)))) as [e1|]; [done|].
  cbv zeta. unfold sql_select_filtrado, sql_select_por_empresa.
  cbn [filtro_limite filtro_numero]. rewrite bool_decide_eq_false_2 by done.
  destruct (bool_decide (n < 0)); [done|]. cbn [fst snd].
  assert (filter (λ l, satisfaz
            {| filtro_empresa := Some emp; filtro_status := None;
               dataInicio := None; dataFim := None; filtro_limite := Some n |}
            l = true) (reclamacoes (banco (avanca (avanca m))))
          = filter (λ l, col_empresa l = emp) (reclamacoes (banco m))) as ->.
  { apply list_filter_iff. intros l.
    unfold satisfaz, filtro_texto, truthy. cbn [filtro_empresa filtro_status
      dataInicio dataFim]. rewrite bool_decide_eq_false_2 by done. cbn [negb].
    rewrite !andb_true_r. apply bool_decide_eq_true. }
  change (reclamacoes (banco (avanca (avanca m)))) with (reclamacoes (banco m)).
  split_and!; [done| | |done].
  - apply Forall_take. rewrite merge_sort_Permutation.
    apply Forall_forall. intros l Hl. by apply list_elem_of_filter in Hl as [? _].
  - etrans; [apply submseteq_take|]. rewrite merge_sort_Permutation.
    apply sublist_submseteq, sublist_filter.
Qed.

Lemma buscarTodasReclamacoes_por_empresa_witness :
  let m := mundo_com_linhas
             [linha_de reclamacao_exemplo; linha_de reclamacao_sem_id;
              linha_de reclamacao_outra] in
  (buscarReclamacoesDB "Acme" (Some 1) m).2
  = Retorno [linha_de reclamacao_sem_id]
  ∧ (buscarTodasReclamacoes
       {| filtro_empresa := Some "Acme"; filtro_status := None;
          dataInicio := None; dataFim := None; filtro_limite := Some 1 |}
       m).2
    = Retorno [linha_de reclamacao_sem_id].
Proof.
  intros m. split; [reflexivity|].
  pose proof (buscarTodasReclamacoes_por_empresa "Acme" 1 m
                ltac:(discriminate) ltac:(discriminate)) as H.
  change (buscarReclamacoesDB "Acme" (Some 1) m).2
    with (Retorno [linha_de reclamacao_sem_id]) in H.
  destruct (buscarTodasReclamacoes _ m).2 as [todas|e]; [|done].
  destruct H as (_ & _ & _ & H). rewrite H; [done|].
  apply (bool_decide_unpack _). vm_compute. exact I.
Defined.

(** ** The ledger *)

#[global] Instance mais_nova_trans : Transitive mais_nova.
Proof. unfold mais_nova. intros a b c. lia. Qed.

#[global] Instance mais_nova_total : Total mais_nova.
Proof. unfold mais_nova. intros a b. lia. Qed.

Section Ledger_rows.

Variables emp itv : string.
Variable agora : Z.

Lemma atualiza_config_empresa c :
  cfg_empresa (atualiza_config emp itv agora c) = cfg_empresa c.
Proof. unfold atualiza_config. by case_bool_decide. Qed.

Lemma desativa_config_empresa c :
  cfg_empresa (desativa_config emp agora c) = cfg_empresa c.
Proof. unfold desativa_config. by case_bool_decide. Qed.

Lemma desativa_config_intervalo c :
  cfg_intervalo (desativa_config emp agora c) = cfg_intervalo c.
Proof. unfold desativa_config. by case_bool_decide. Qed.

(** A change of the rows of one company leaves the rows of the others. *)
Lemma filter_outras (g : LinhaConfig → LinhaConfig) (l : list LinhaConfig) :
  (∀ c, cfg_empresa (g c) = cfg_empresa c) →
  (∀ c, cfg_empresa c ≠ emp → g c = c) →
  filter (λ c, cfg_empresa c ≠ emp) (g <$> l)
  = filter (λ c, cfg_empresa c ≠ emp) l.
Proof.
  intros Hg Hid. induction l as [|c l IH]; [done|]. cbn [fmap list_fmap].
  destruct (decide (cfg_empresa c = emp)) as [E|E].
  - rewrite !filter_cons_False; [done|naive_solver|rewrite Hg; naive_solver].
  - rewrite !filter_cons_True by (by rewrite ?Hg). by rewrite IH, Hid.
Qed.

Lemma filter_da_empresa (g : LinhaConfig → LinhaConfig) (l : list LinhaConfig) :
  (∀ c, cfg_empresa (g c) = cfg_empresa c) →
  filter (λ c, cfg_empresa c = emp) (g <$> l)
  = g <$> filter (λ c, cfg_empresa c = emp) l.
Proof.
  intros Hg. induction l as [|c l IH]; [done|]. cbn [fmap list_fmap].
  destruct (decide (cfg_empresa c = emp)) as [E|E].
  - rewrite !filter_cons_True by (by rewrite ?Hg). cbn. by rewrite IH.
  - by rewrite !filter_cons_False by (by rewrite ?Hg).
Qed.

Lemma filter_nenhuma (l : list LinhaConfig) :
  emp ∉ cfg_empresa <$> l → filter (λ c, cfg_empresa c = emp) l = [].
Proof.
  induction l as [|c l IH]; [done|]. cbn [fmap list_fmap].
  intros [Hc Hl]%not_elem_of_cons.
  rewrite filter_cons_False by done. by apply IH.
Qed.

(** With one row for a company, the rows of [emp] are none or one. *)
Lemma filter_unica (l : list LinhaConfig) :
  NoDup (cfg_empresa <$> l) →
  filter (λ c, cfg_empresa c = emp) l = []
  ∨ ∃ c, filter (λ c, cfg_empresa c = emp) l = [c].
Proof.
  induction l as [|c l IH]; [by left|]. cbn [fmap list_fmap].
  intros [Hc Hl]%NoDup_cons.
  destruct (decide (cfg_empresa c = emp)) as [E|E].
  - right. exists c. rewrite filter_cons_True by done. f_equal.
    apply filter_nenhuma. by rewrite <- E.
  - rewrite filter_cons_False by done. by apply IH.
Qed.

Lemma existsb_empresa (l : list LinhaConfig) :
  existsb (λ c, bool_decide (cfg_empresa c = emp)) l = false ↔
  filter (λ c, cfg_empresa c = emp) l = [].
Proof.
  induction l as [|c l IH]; [done|]. cbn [existsb].
  destruct (decide (cfg_empresa c = emp)) as [E|E].
  - rewrite bool_decide_eq_true_2, filter_cons_True by done. cbn. split; done.
  - rewrite bool_decide_eq_false_2, filter_cons_False by done. by cbn.
Qed.

End Ledger_rows.

Lemma tail_tail_drop {A} (l : list A) : tail (tail l) = drop 2 l.
Proof. by destruct l as [|? [|? ?]]. Qed.

Lemma sem_falhas_apos_consulta m m' :
  sem_falhas 4 m →
  falhas (banco m') = falhas (banco (avanca (avanca m))) →
  sem_falhas 2 m'.
Proof.
  intros H Hf. apply (sem_falhas_drop 2 2 m); [done|].
  by rewrite Hf, !falhas_avanca, tail_tail_drop.
Qed.

(** X6. Registering a company whose ledger has one row for a company
    keeps it so.  The rows of the other companies are untouched; the
    company gets a single active row with the interval given, which keeps
    the creation time of the row it replaces, if there was one. *)
Theorem salvarConfiguracao_substitui (emp itv : string) (m : Mundo)
    (Hu : uma_linha_por_empresa (banco m))
    (Hok : sem_falhas 2 m) :
  let antes := configuracoes (banco m) in
  let depois := configuracoes (banco (salvarConfiguracao emp itv m).1) in
  uma_linha_por_empresa (banco (salvarConfiguracao emp itv m).1)
  ∧ filter (λ c, cfg_empresa c ≠ emp) depois
    = filter (λ c, cfg_empresa c ≠ emp) antes
  ∧ filter (λ c, cfg_empresa c = emp) depois
    = [ {| cfg_empresa := emp; cfg_intervalo := itv; ativo := true;
           criado_em :=
             match filter (λ c, cfg_empresa c = emp) antes with
             | c0 :: _ => criado_em c0
             | [] => current_timestamp (banco m)
             end;
           atualizado_em := current_timestamp (banco m) |} ].
Proof.
  apply sem_falhas_2 in Hok as [H0 H1]. cbv zeta.
  rewrite salvarConfiguracao_gravada by done.
  unfold uma_linha_por_empresa in *. cbn [fst banco com_banco].
  unfold sql_upsert_configuracao.
  change (configuracoes (banco (avanca (avanca m))))
    with (configuracoes (banco m)).
  change (current_timestamp (banco (avanca (avanca m))))
    with (current_timestamp (banco m)).
  set (agora := current_timestamp (banco m)).
  set (antes := configuracoes (banco m)) in *.
  destruct (existsb _ antes) eqn:E; cbn [fst configuracoes com_configuracoes].
  - split_and!.
    + rewrite <- list_fmap_compose.
      erewrite list_fmap_ext; [exact Hu|]. intros ? c _. cbn.
      apply atualiza_config_empresa.
    + apply filter_outras; [apply atualiza_config_empresa|].
      intros c Hc. unfold atualiza_config. by rewrite bool_decide_eq_false_2.
    + rewrite filter_da_empresa by apply atualiza_config_empresa.
      destruct (filter_unica emp antes Hu) as [Hn|[c0 Hc0]].
      * apply existsb_empresa in Hn. congruence.
      * rewrite Hc0. cbn.
        assert (cfg_empresa c0 = emp) as Hemp.
        { assert (c0 ∈ filter (λ c, cfg_empresa c = emp) antes) as Hin
            by (rewrite Hc0; apply list_elem_of_singleton; done).
          by apply list_elem_of_filter in Hin as [? _]. }
        unfold atualiza_config. rewrite bool_decide_eq_true_2 by done.
        by rewrite Hemp.
  - apply existsb_empresa in E.
    assert (emp ∉ cfg_empresa <$> antes) as Hnot.
    { intros (c & Hc & Hin)%list_elem_of_fmap.
      eapply (filter_nil_not_elem_of _ _ c); [exact E|done|done]. }
    split_and!.
    + rewrite fmap_app. apply NoDup_app. split; [done|]. split.
      * intros x Hx Hx'. apply list_elem_of_singleton in Hx'. by subst.
      * apply NoDup_singleton.
    + rewrite filter_app, filter_cons_False, filter_nil, app_nil_r; [done|].
      cbn. naive_solver.
    + rewrite filter_app, E, filter_cons_True by done. done.
Qed.

Lemma salvarConfiguracao_substitui_witness :
  filter (λ c, cfg_empresa c = "Acme")
    (configuracoes
       (banco (salvarConfiguracao "Acme" "3h"
                 (salvarConfiguracao "Acme" "1h" mundo_vazio).1).1))
  = [ {| cfg_empresa := "Acme"; cfg_intervalo := "3h"; ativo := true;
         criado_em := 0; atualizado_em := 0 |} ].
Proof.
  apply (salvarConfiguracao_substitui "Acme" "3h"
           (salvarConfiguracao "Acme" "1h" mundo_vazio).1).
  - vm_compute. apply NoDup_singleton.
  - vm_compute. constructor.
Defined.

(** The listing, when the engine refuses nothing. *)
Lemma obterConfiguracoes_sem_falhas ap m :
  sem_falhas 2 m →
  (obterConfiguracoes ap m).2
  = Retorno
      (merge_sort mais_nova
         (if default true ap
          then filter (λ c, ativo c = true) (configuracoes (banco m))
          else configuracoes (banco m))).
Proof.
  intros [H0 H1]%sem_falhas_2. unfold obterConfiguracoes.
  rewrite consulta_protegida, H0, H1. reflexivity.
Qed.

(** X7. A company that was registered is listed.  When the engine refuses
    nothing, [obterConfiguracoes()] after [salvarConfiguracao] returns an
    active row of the company with the interval given. *)
Theorem salvarConfiguracao_depois_lista (emp itv : string) (m : Mundo)
    (Hok : sem_falhas 4 m) :
  ∃ linhas c,
    (obterConfiguracoes None (salvarConfiguracao emp itv m).1).2 = Retorno linhas
    ∧ c ∈ linhas
    ∧ cfg_empresa c = emp ∧ cfg_intervalo c = itv ∧ ativo c = true.
Proof.
  assert (sem_falhas 2 m) as [H0 H1]%sem_falhas_2
    by (eapply sem_falhas_menos; [|exact Hok]; lia).
  rewrite salvarConfiguracao_gravada by done.
  rewrite obterConfiguracoes_sem_falhas.
  2:{ eapply sem_falhas_apos_consulta; [exact Hok|].
      cbn. unfold sql_upsert_configuracao. by destruct (existsb _ _). }
  destruct (sql_upsert_configuracao_registra emp itv (banco (avanca (avanca m))))
    as (c & Hc & He & Hi & Ha).
  eexists _, c. split; [reflexivity|]. split; [|done].
  rewrite merge_sort_Permutation. cbn [default from_option].
  by apply list_elem_of_filter.
Qed.

Lemma salvarConfiguracao_depois_lista_witness :
  ∃ linhas c,
    (obterConfiguracoes None (salvarConfiguracao "Acme" "30min" mundo_vazio).1).2
    = Retorno linhas
    ∧ c ∈ linhas
    ∧ cfg_empresa c = "Acme" ∧ cfg_intervalo c = "30min" ∧ ativo c = true.
Proof.
  apply (salvarConfiguracao_depois_lista "Acme" "30min" mundo_vazio).
  vm_compute. constructor.
Defined.

(** X8. [desativarMonitoramento] changes the flag of the rows of its
    company and nothing else in the ledger: companies, intervals and the
    rows of the other companies stay.  Afterwards [obterConfiguracoes()]
    does not list the company, while [obterConfiguracoes(false)] still
    returns a row for every company of the ledger. *)
Theorem desativarMonitoramento_efeito (emp : string) (m : Mundo)
    (Hok : sem_falhas 4 m) :
  let antes := configuracoes (banco m) in
  let m' := (desativarMonitoramento emp m).1 in
  cfg_empresa <$> configuracoes (banco m') = cfg_empresa <$> antes
  ∧ cfg_intervalo <$> configuracoes (banco m') = cfg_intervalo <$> antes
  ∧ filter (λ c, cfg_empresa c ≠ emp) (configuracoes (banco m'))
    = filter (λ c, cfg_empresa c ≠ emp) antes
  ∧ (∃ ativas,
       (obterConfiguracoes None m').2 = Retorno ativas
       ∧ emp ∉ cfg_empresa <$> ativas)
  ∧ (∃ todas,
       (obterConfiguracoes (Some false) m').2 = Retorno todas
       ∧ cfg_empresa <$> todas ≡ₚ cfg_empresa <$> antes).
Proof.
  assert (sem_falhas 2 m) as [H0 H1]%sem_falhas_2
    by (eapply sem_falhas_menos; [|exact Hok]; lia).
  cbv zeta. unfold desativarMonitoramento.
  rewrite consulta_protegida, H0, H1. cbn [fst snd sql_desativar].
  set (agora := current_timestamp _).
  set (m' := com_banco _ _).
  assert (configuracoes (banco m')
          = desativa_config emp agora <$> configuracoes (banco m)) as Hc
    by reflexivity.
  assert (sem_falhas 2 m') as Hok' by (by eapply sem_falhas_apos_consulta).
  rewrite !obterConfiguracoes_sem_falhas by done. rewrite Hc.
  split_and!.
  - rewrite <- list_fmap_compose. apply list_fmap_ext. intros ? c _.
    apply desativa_config_empresa.
  - rewrite <- list_fmap_compose. apply list_fmap_ext. intros ? c _.
    apply desativa_config_intervalo.
  - apply filter_outras; [apply desativa_config_empresa|].
    intros c Hne. unfold desativa_config. by rewrite bool_decide_eq_false_2.
  - eexists. split; [reflexivity|]. cbn [default from_option].
    intros (c & He & Hin)%list_elem_of_fmap.
    rewrite merge_sort_Permutation in Hin.
    apply list_elem_of_filter in Hin as [Ha (c0 & -> & _)%list_elem_of_fmap].
    rewrite desativa_config_empresa in He.
    unfold desativa_config in Ha. by rewrite bool_decide_eq_true_2 in Ha.
  - eexists. split; [reflexivity|].
    change (default true (Some false)) with false. cbv iota.
    rewrite merge_sort_Permutation, <- list_fmap_compose.
    erewrite list_fmap_ext; [done|]. intros ? c _. cbn.
    apply desativa_config_empresa.
Qed.

Lemma desativarMonitoramento_efeito_witness :
  ∃ ativas,
    (obterConfiguracoes None
       (desativarMonitoramento "Acme"
          (salvarConfiguracao "Acme" "1h" mundo_vazio).1).1).2
    = Retorno ativas
    ∧ "Acme" ∉ cfg_empresa <$> ativas.
Proof.
  apply (desativarMonitoramento_efeito "Acme"
           (salvarConfiguracao "Acme" "1h" mundo_vazio).1).
  vm_compute. constructor.
Defined.

(** ** The registry of jobs *)

Section Registry.

Variable emp : string.

Lemma registro_coerente_ext m m' :
  jobsAtivos m' = jobsAtivos m → tarefas m' = tarefas m →
  registro_coerente m → registro_coerente m'.
Proof. unfold registro_coerente. by intros -> ->. Qed.

(** A company without entry has no running task. *)
Lemma coerente_sem_entrada m :
  registro_coerente m → jobsAtivos m !! emp = None →
  filter (rodando_para emp) (tarefas m) = [].
Proof.
  intros [_ H2] Hn.
  destruct (filter (rodando_para emp) (tarefas m)) as [|t l] eqn:E; [done|].
  assert (t ∈ filter (rodando_para emp) (tarefas m)) as Hin
    by (rewrite E; apply list_elem_of_In; cbn; auto).
  apply list_elem_of_filter in Hin as [[Ha Hr] Hin].
  apply list_elem_of_lookup in Hin as [i Hi].
  destruct (H2 i t Hi Hr) as (jobInfo & Hj & _). congruence.
Qed.

Lemma pararMonitoramento_coerente m :
  registro_coerente m → registro_coerente (pararMonitoramento emp m).1.
Proof.
  intros [H1 H2]. rewrite pararMonitoramento_casos.
  destruct (jobsAtivos m !! emp) as [jobInfo|] eqn:E; [|done].
  destruct (H1 emp jobInfo E) as (t0 & Ht0 & Ha0 & Hr0).
  split; cbn [fst jobsAtivos tarefas com_jobsAtivos com_tarefas].
  - intros e info He.
    apply lookup_delete_Some in He as [Hne He].
    destruct (H1 e info He) as (t & Ht & Ha & Hr).
    exists t. rewrite list_lookup_alter_ne; [done|].
    intros Heq. rewrite Heq in Ht0. congruence.
  - intros i t Hi Hr.
    destruct (decide (i = job jobInfo)) as [->|Hne].
    + rewrite list_lookup_alter_eq, Ht0 in Hi. by injection Hi as <-.
    + rewrite list_lookup_alter_ne in Hi by done.
      destruct (H2 i t Hi Hr) as (info & Hj & Hjob).
      exists info. split; [|done]. rewrite lookup_delete_ne; [done|].
      intros Heq. rewrite <- Heq in Hj. congruence.
Qed.

Lemma pararMonitoramento_remove m :
  jobsAtivos (pararMonitoramento emp m).1 !! emp = None.
Proof.
  rewrite pararMonitoramento_casos.
  destruct (jobsAtivos m !! emp) eqn:E; [|done]. cbn. apply lookup_delete_eq.
Qed.

Lemma pararMonitoramento_outras m :
  jobsAtivos (pararMonitoramento emp m).1 = delete emp (jobsAtivos m).
Proof.
  rewrite pararMonitoramento_casos.
  destruct (jobsAtivos m !! emp) eqn:E; [done|]. cbn. symmetry.
  by apply delete_id.
Qed.

(** X9. Stopping is idempotent: after [pararMonitoramento] a second call
    finds no job, returns false and changes nothing. *)
Theorem pararMonitoramento_idempotente (m : Mundo) :
  pararMonitoramento emp (pararMonitoramento emp m).1
  = ((pararMonitoramento emp m).1, Retorno false).
Proof.
  rewrite (pararMonitoramento_casos emp (pararMonitoramento emp m).1).
  by rewrite pararMonitoramento_remove.
Qed.

(** After a start the registry is coherent again, whatever the token. *)
Lemma iniciarMonitoramento_coerente itv m :
  registro_coerente m → registro_coerente (iniciarMonitoramento emp itv m).1.
Proof.
  intros Hc. pose proof (pararMonitoramento_coerente m Hc) as [H1 H2].
  pose proof (pararMonitoramento_remove m) as Hn.
  destruct (intervalParaCron itv) as [expr|nome|] eqn:He.
  - rewrite (iniciarMonitoramento_agenda emp itv expr) by done.
    set (m0 := (pararMonitoramento emp m).1) in *.
    split; cbn [fst jobsAtivos tarefas com_jobsAtivos com_tarefas com_relogio
                com_ciclos].
    + intros e info Hl. destruct (decide (e = emp)) as [->|Hne].
      * rewrite lookup_insert_eq in Hl. injection Hl as <-. cbn [job].
        eexists. split; [by rewrite lookup_app_r, Nat.sub_diag|done].
      * rewrite lookup_insert_ne in Hl by done.
        destruct (H1 e info Hl) as (t & Ht & Ha & Hr).
        exists t. split; [|done]. rewrite lookup_app_l; [done|].
        by eapply lookup_lt_Some.
    + intros i t Hi Hr.
      apply lookup_snoc_Some in Hi as [[Hlt Hi]|[-> <-]].
      * destruct (H2 i t Hi Hr) as (info & Hj & Hjob).
        exists info. split; [|done]. rewrite lookup_insert_ne; [done|].
        intros Heq. rewrite <- Heq in Hj. congruence.
      * cbn [alvo]. rewrite lookup_insert_eq. by eexists.
  - rewrite iniciarMonitoramento_recusa by (intros ?; congruence).
    by eapply registro_coerente_ext; [..|split].
  - rewrite iniciarMonitoramento_recusa by (intros ?; congruence).
    by eapply registro_coerente_ext; [..|split].
Qed.

(** X10. At most one job runs for a company.  From a coherent registry,
    [iniciarMonitoramento] leaves a coherent registry in which the running
    tasks of the company are exactly the task just scheduled, with the cron
    string of the interval; when the interval maps to no cron string the
    call throws and the company is left with no running task, the job it
    had being stopped and removed before the failure. *)
Theorem iniciarMonitoramento_um_job (itv : string) (m : Mundo)
    (Hc : registro_coerente m) :
  registro_coerente (iniciarMonitoramento emp itv m).1
  ∧ filter (rodando_para emp) (tarefas (iniciarMonitoramento emp itv m).1)
    = match intervalParaCron itv with
      | VString expr => [ {| expressao := expr; alvo := emp; rodando := true |} ]
      | _ => []
      end
  ∧ sm_ativo (statusMonitoramento emp (iniciarMonitoramento emp itv m).1)
    = match intervalParaCron itv with
      | VString _ => true
      | _ => false
      end.
Proof.
  split; [by apply iniciarMonitoramento_coerente|].
  pose proof (pararMonitoramento_coerente m Hc) as Hc0.
  pose proof (pararMonitoramento_remove m) as Hn.
  pose proof (coerente_sem_entrada _ Hc0 Hn) as Hf.
  unfold statusMonitoramento.
  destruct (intervalParaCron itv) as [expr|nome|] eqn:He.
  - rewrite (iniciarMonitoramento_agenda emp itv expr) by done.
    cbn [fst jobsAtivos tarefas com_jobsAtivos com_tarefas com_relogio
         com_ciclos].
    rewrite filter_app, Hf, lookup_insert_eq. split; [|done].
    by rewrite filter_cons_True.
  - rewrite iniciarMonitoramento_recusa by (intros ?; congruence).
    cbn [fst jobsAtivos tarefas com_console com_ciclos]. by rewrite Hn.
  - rewrite iniciarMonitoramento_recusa by (intros ?; congruence).
    cbn [fst jobsAtivos tarefas com_console com_ciclos]. by rewrite Hn.
Qed.

(** X11. A start followed by a stop leaves no task running for the company
    and the entries of the other companies as they were; the registry stays
    coherent and [statusMonitoramento] reports the company inactive. *)
Theorem iniciar_depois_parar (itv : string) (m : Mundo)
    (Hc : registro_coerente m) :
  let m2 := (pararMonitoramento emp (iniciarMonitoramento emp itv m).1).1 in
  registro_coerente m2
  ∧ filter (rodando_para emp) (tarefas m2) = []
  ∧ jobsAtivos m2 = delete emp (jobsAtivos m)
  ∧ statusMonitoramento emp m2
    = {| sm_empresa := emp; sm_ativo := false;
         sm_intervalo := None; sm_iniciado := None |}.
Proof.
  intros m2.
  assert (registro_coerente m2) as Hc2
    by by apply pararMonitoramento_coerente, iniciarMonitoramento_coerente.
  pose proof (pararMonitoramento_remove (iniciarMonitoramento emp itv m).1) as Hn.
  fold m2 in Hn. split_and!; [done|by apply coerente_sem_entrada| |].
  - unfold m2. rewrite pararMonitoramento_outras.
    destruct (intervalParaCron itv) as [expr|nome|] eqn:He.
    + rewrite (iniciarMonitoramento_agenda emp itv expr) by done. cbn.
      by rewrite delete_insert_eq, pararMonitoramento_outras, delete_delete_eq.
    + rewrite iniciarMonitoramento_recusa by (intros ?; congruence). cbn.
      by rewrite pararMonitoramento_outras, delete_delete_eq.
    + rewrite iniciarMonitoramento_recusa by (intros ?; congruence). cbn.
      by rewrite pararMonitoramento_outras, delete_delete_eq.
  - unfold statusMonitoramento. by rewrite Hn.
Qed.

End Registry.

Lemma registro_coerente_vazio : registro_coerente mundo_vazio.
Proof.
  split.
  - intros e info H. change (jobsAtivos mundo_vazio) with (∅ : gmap string JobInfo) in H.
    by rewrite lookup_empty in H.
  - intros i t H. by destruct i.
Qed.

Lemma iniciarMonitoramento_um_job_witness :
  filter (rodando_para "Acme")
    (tarefas (iniciarMonitoramento "Acme" "3h"
                (iniciarMonitoramento "Acme" "1h" mundo_vazio).1).1)
  = [ {| expressao := "0 */3 * * *"; alvo := "Acme"; rodando := true |} ].
Proof.
  apply (iniciarMonitoramento_um_job "Acme" "3h"
           (iniciarMonitoramento "Acme" "1h" mundo_vazio).1).
  apply iniciarMonitoramento_coerente, registro_coerente_vazio.
Defined.

Lemma iniciar_depois_parar_witness :
  let m2 := (pararMonitoramento "Acme"
               (iniciarMonitoramento "Acme" "30min" mundo_vazio).1).1 in
  registro_coerente m2
  ∧ filter (rodando_para "Acme") (tarefas m2) = []
  ∧ jobsAtivos m2 = delete "Acme" (jobsAtivos mundo_vazio)
  ∧ statusMonitoramento "Acme" m2
    = {| sm_empresa := "Acme"; sm_ativo := false;
         sm_intervalo := None; sm_iniciado := None |}.
Proof.
  apply (iniciar_depois_parar "Acme" "30min" mundo_vazio).
  apply registro_coerente_vazio.
Defined.

(** *** Stopping every job *)

Lemma para_tarefa_idemp t : para_tarefa (para_tarefa t) = para_tarefa t.
Proof. done. Qed.

(** The tasks after the [forEach] of [pararTodos]: those of the entries
    visited are stopped, the others are as they were. *)
Lemma para_entradas_lookup (l : list (string * JobInfo)) (t : list TarefaCron) i :
  foldr (λ entrada t, alter para_tarefa (job entrada.2) t) t l !! i
  = (if decide (i ∈ (λ entrada, job entrada.2) <$> l)
     then para_tarefa else λ x, x) <$> t !! i.
Proof.
  induction l as [|[e info] l IH]; cbn [foldr fmap list_fmap snd].
  { rewrite decide_False by apply not_elem_of_nil. by destruct (t !! i). }
  destruct (decide (i = job info)) as [->|Hne].
  - rewrite list_lookup_alter_eq, IH.
    rewrite (decide_True (P := _ ∈ _ :: _)) by (apply elem_of_cons; by left).
    destruct (t !! job info); [|done]. cbn. by case_decide.
  - rewrite list_lookup_alter_ne, IH by done.
    destruct (decide (i ∈ (λ entrada, job entrada.2) <$> l)) as [Hin|Hin].
    + by rewrite decide_True by (apply elem_of_cons; by right).
    + rewrite decide_False; [done|].
      intros [?|?]%elem_of_cons; done.
Qed.

(** X12. [pararTodos] empties the registry and stops the task of every
    entry, keeping the tasks themselves and the database; from a coherent
    registry no task is running afterwards. *)
Theorem pararTodos_para_tudo (m : Mundo) (Hc : registro_coerente m) :
  let m' := (pararTodos m).1 in
  jobsAtivos m' = ∅
  ∧ Forall (λ t, rodando t = false) (tarefas m')
  ∧ alvo <$> tarefas m' = alvo <$> tarefas m
  ∧ expressao <$> tarefas m' = expressao <$> tarefas m
  ∧ banco m' = banco m
  ∧ registro_coerente m'.
Proof.
  destruct Hc as [H1 H2]. cbv zeta. unfold pararTodos.
  cbn [fst jobsAtivos tarefas banco com_jobsAtivos com_tarefas].
  set (novas := foldr _ _ _).
  assert (∀ i, novas !! i
               = (if decide (i ∈ (λ entrada : string * JobInfo, job entrada.2)
                               <$> map_to_list (jobsAtivos m))
                  then para_tarefa else λ x, x) <$> tarefas m !! i) as Hl
    by (intros i; apply para_entradas_lookup).
  assert (Forall (λ t, rodando t = false) novas) as Hf.
  { apply Forall_lookup. intros i t' Hi. rewrite Hl in Hi.
    destruct (tarefas m !! i) as [t|] eqn:Ht; [|done].
    injection Hi as <-. case_decide as Hin; [done|].
    destruct (rodando t) eqn:Hr; [|done]. exfalso. apply Hin.
    destruct (H2 i t Ht Hr) as (info & Hj & <-).
    apply list_elem_of_fmap. exists (alvo t, info). split; [done|].
    by apply elem_of_map_to_list. }
  split_and!; [done|done| | |done|].
  - apply list_eq. intros i. rewrite !list_lookup_fmap, Hl.
    destruct (tarefas m !! i); [|done]. cbn. by case_decide.
  - apply list_eq. intros i. rewrite !list_lookup_fmap, Hl.
    destruct (tarefas m !! i); [|done]. cbn. by case_decide.
  - split; cbn [jobsAtivos tarefas com_jobsAtivos com_tarefas].
    + intros e info H. by rewrite lookup_empty in H.
    + intros i t Hi Hr. rewrite Forall_lookup in Hf.
      rewrite (Hf i t Hi) in Hr. done.
Qed.

Lemma pararTodos_para_tudo_witness :
  Forall (λ t, rodando t = false)
    (tarefas (pararTodos
                (iniciarMonitoramento "Globex" "1d"
                   (iniciarMonitoramento "Acme" "1h" mundo_vazio).1).1).1).
Proof.
  apply (pararTodos_para_tudo
           (iniciarMonitoramento "Globex" "1d"
              (iniciarMonitoramento "Acme" "1h" mundo_vazio).1).1).
  apply iniciarMonitoramento_coerente, iniciarMonitoramento_coerente,
    registro_coerente_vazio.
Defined.

(** ** Fetching, and the cycle *)

Lemma intocado_refl m : intocado m m.
Proof. by repeat split. Qed.

Lemma intocado_trans m1 m2 m3 :
  intocado m1 m2 → intocado m2 m3 → intocado m1 m3.
Proof. unfold intocado. intros (-> & -> & -> & ->) (-> & -> & -> & ->). done. Qed.

Lemma so_relogio_intocado m m' : so_relogio m m' → intocado m m'.
Proof. unfold so_relogio. intros ->. by repeat split. Qed.

Lemma com_rede_rede m : com_rede (rede m) m = m.
Proof. by destruct m. Qed.

(** The [catch] block of [buscarReclamacoes] always throws, having written
    to the console and touched nothing else. *)
Lemma trata_erro_busca_lanca {A} erro m :
  ∃ m' erro', trata_erro_busca (A := A) erro m = (m', Excecao erro')
              ∧ intocado m m'
              ∧ rede m' = rede m.
Proof.
  unfold trata_erro_busca, liga, console_error.
  destruct (response erro) as [st|]; cbn [fst snd].
  - repeat case_bool_decide; eexists _, _; by repeat split.
  - destruct (request erro); eexists _, _; by repeat split.
Qed.

(** A fetch touches neither the database nor the scheduler, whatever the
    network answers: [buscarReclamacoes] consumes one answer of the network
    and changes only the clock and, when it throws, the console. *)
Lemma buscarReclamacoes_efeito (nomeEmpresa : string) (m : Mundo) :
  intocado m (buscarReclamacoes nomeEmpresa m).1
  ∧ rede (buscarReclamacoes nomeEmpresa m).1 = tail (rede m)
  ∧ match (buscarReclamacoes nomeEmpresa m).2 with
    | Retorno recl =>
        console (buscarReclamacoes nomeEmpresa m).1 = console m
        ∧ (length recl ≤ 20)%nat
    | Excecao _ => relogio (buscarReclamacoes nomeEmpresa m).1 = relogio m
    end.
Proof.
  destruct (rede m) as [|[cards|e] resto] eqn:Hr.
  - unfold buscarReclamacoes, tenta, liga, axios_get. rewrite Hr.
    destruct (trata_erro_busca_lanca (A := list Reclamacao) erro_timeout m)
      as (m' & e' & E & Hi & Hrede).
    rewrite E. cbn [fst snd]. split; [done|]. split; [by rewrite Hrede, Hr|].
    unfold trata_erro_busca, liga, console_error in E. cbn in E.
    by injection E as <- _.
  - rewrite <- (com_rede_rede m), Hr.
    destruct (buscarReclamacoes_resolve nomeEmpresa cards resto m)
      as (m' & recl & -> & Hf & Hs & _).
    cbn [fst snd]. pose proof Hs as ->. cbn. split_and!; try done.
    rewrite <- (Forall2_length _ _ _ Hf).
    etrans; [apply length_filter|]. rewrite length_take.
    unfold CONFIG_MAX_RECLAMACOES. lia.
  - rewrite <- (com_rede_rede m), Hr.
    unfold buscarReclamacoes, tenta, liga. rewrite axios_get_reject.
    destruct (trata_erro_busca_lanca (A := list Reclamacao) e (com_rede resto m))
      as (m' & e' & E & Hi & Hrede).
    rewrite E. cbn [fst snd]. split; [done|]. split; [by rewrite Hrede|].
    unfold trata_erro_busca, liga, console_error in E.
    destruct (response e) as [st|]; cbn [fst snd] in E.
    + repeat case_bool_decide; by injection E as <- _.
    + destruct (request e); by injection E as <- _.
Qed.

(** What saving a batch can change, whatever the engine answers. *)
Lemma salvarReclamacoesDB_efeito lote m :
  so_banco_e_console m (salvarReclamacoesDB lote m).1
  ∧ configuracoes (banco (salvarReclamacoesDB lote m).1)
    = configuracoes (banco m)
  ∧ reclamacoes (banco m)
    `prefix_of` reclamacoes (banco (salvarReclamacoesDB lote m).1).
Proof.
  destruct (hd None (falhas (banco m))) as [erro|] eqn:H.
  { rewrite (salvarReclamacoesDB_desconectado _ _ erro) by done.
    split_and!; [apply so_banco_e_console_avanca|done..]. }
  rewrite salvarReclamacoesDB_conectado by done.
  destruct (laco_salvar_efeito lote {| salvos := 0; duplicados := 0 |} (avanca m))
    as (m' & c' & logs & E & F & G & _).
  destruct (laco_salvar_linhas lote {| salvos := 0; duplicados := 0 |} (avanca m))
    as (m'' & c'' & novas & E' & Hr & _).
  rewrite E in E'. injection E' as <- <-. rewrite E. cbn [fst].
  split_and!; [|done|].
  - eapply so_banco_e_console_trans; [apply so_banco_e_console_avanca|done].
  - rewrite Hr. by apply prefix_app_r.
Qed.

Lemma so_banco_e_console_campos m m' :
  so_banco_e_console m m' →
  jobsAtivos m' = jobsAtivos m ∧ tarefas m' = tarefas m ∧ ciclos m' = ciclos m.
Proof. unfold so_banco_e_console. by intros ->. Qed.

(** X13. A cycle never throws, whatever the network and the engine answer:
    [executarMonitoramento] returns, having touched neither the registry,
    nor the tasks, nor the ledger; the rows of complaints there were are
    still there, in place. *)
Theorem executarMonitoramento_nunca_lanca (emp : string) (m : Mundo) :
  ∃ m',
    executarMonitoramento emp m = (m', Retorno tt)
    ∧ jobsAtivos m' = jobsAtivos m
    ∧ tarefas m' = tarefas m
    ∧ ciclos m' = ciclos m
    ∧ configuracoes (banco m') = configuracoes (banco m)
    ∧ reclamacoes (banco m) `prefix_of` reclamacoes (banco m').
Proof.
  unfold executarMonitoramento, tenta, liga.
  pose proof (buscarReclamacoes_efeito emp m) as ((Hb & Hj & Ht & Hc) & _ & _).
  destruct (buscarReclamacoes emp m) as [m1 [recl|e]]; cbn [fst snd] in *.
  - case_bool_decide.
    { eexists. split; [reflexivity|]. by rewrite Hb. }
    pose proof (salvarReclamacoesDB_efeito recl m1) as (Hs & Hcfg & Hpre).
    apply so_banco_e_console_campos in Hs as (Hj' & Ht' & Hc').
    destruct (salvarReclamacoesDB recl m1) as [m2 [c|e]]; cbn [fst snd] in *;
      (eexists; split; [reflexivity|]); cbn; rewrite <- Hb; split_and!; congruence.
  - eexists. split; [reflexivity|]. cbn. by rewrite Hb.
Qed.



(** A card with a title yields a record with the identifier read from its
    anchor and the company asked for. *)
Lemma extrai_card_chave nomeEmpresa index item acc m :
  (index < CONFIG_MAX_RECLAMACOES)%nat → tem_titulo item →
  ∃ m' r, extrai_card nomeEmpresa index item acc m
          = (m', Retorno ((acc ++ [r])%list, true))
          ∧ id r = id_do_href (href item) ∧ empresa r = nomeEmpresa.
Proof.
  intros H T. unfold extrai_card. rewrite bool_decide_eq_false_2 by lia.
  unfold tem_titulo in T.
  unfold truthy at 1. rewrite bool_decide_eq_false_2 by done. cbn [negb].
  destruct (truthy (trim (texto_data item))); by eexists _, _.
Qed.

Lemma each_extrai_card_chaves nomeEmpresa cards : ∀ index acc m,
  (index ≤ CONFIG_MAX_RECLAMACOES)%nat →
  ∃ m' novas,
    each (extrai_card nomeEmpresa) index cards acc m
    = (m', Retorno (acc ++ novas)%list)
    ∧ Forall2 (λ c r, id r = id_do_href (href c) ∧ empresa r = nomeEmpresa)
        (filter tem_titulo (take (CONFIG_MAX_RECLAMACOES - index) cards))
        novas.
Proof.
  induction cards as [|c cards IH]; intros index acc m Hi.
  { exists m, []. rewrite take_nil, app_nil_r. by split. }
  destruct (decide (index = CONFIG_MAX_RECLAMACOES)) as [->|Hlt].
  { exists m, []. rewrite Nat.sub_diag, app_nil_r. cbn [take each].
    unfold liga. rewrite extrai_card_limite by done. by split. }
  assert (index < CONFIG_MAX_RECLAMACOES)%nat as Hlt' by lia.
  replace (CONFIG_MAX_RECLAMACOES - index)%nat
    with (S (CONFIG_MAX_RECLAMACOES - S index)) by lia.
  cbn [take each]. unfold liga.
  destruct (decide (tem_titulo c)) as [T|T].
  - destruct (extrai_card_chave nomeEmpresa index c acc m Hlt' T)
      as (m1 & r & -> & Hr).
    cbn [fst snd].
    destruct (IH (S index) (acc ++ [r])%list m1 ltac:(lia))
      as (m' & novas & -> & Hn).
    exists m', (r :: novas). rewrite <- app_assoc. split; [done|].
    rewrite filter_cons_True by done. by constructor.
  - rewrite extrai_card_sem_titulo by done. cbn [fst snd].
    destruct (IH (S index) acc m ltac:(lia)) as (m' & novas & -> & Hn).
    exists m', novas. split; [done|]. by rewrite filter_cons_False by done.
Qed.

(** X15. What a cycle fetches is stored.  When the engine refuses nothing,
    after [executarMonitoramento] every card with a title among the first
    20 of the page is represented in the table by a row of the company
    with the identifier read from the anchor of the card. *)
Theorem executarMonitoramento_guarda
    (emp : string) (cards : list Card) (c : Card)
    (resto : list RespostaAxios) (m : Mundo)
    (Hok : sem_falhas 21 m)
    (Hc : c ∈ filter tem_titulo (take 20 cards)) :
  ∃ row,
    row ∈ reclamacoes
            (banco (executarMonitoramento emp
                      (com_rede (Resolve cards :: resto) m)).1)
    ∧ col_empresa row = emp
    ∧ id_externo row = id_do_href (href c).
Proof.
  unfold executarMonitoramento, tenta, liga.
  destruct (buscarReclamacoes_resolve emp cards resto m)
    as (m1 & recl & E & Hf & Hs & _).
  destruct (each_extrai_card_chaves emp cards 0%nat [] (com_rede resto m)
              ltac:(lia)) as (m1' & recl' & E' & Hk).
  unfold buscarReclamacoes, tenta, liga in E.
  rewrite axios_get_resolve, E' in E. injection E as <- <-.
  unfold buscarReclamacoes, tenta, liga. rewrite axios_get_resolve, E'.
  cbn [app fst snd] in *. rewrite Nat.sub_0_r in Hk.
  change CONFIG_MAX_RECLAMACOES with 20%nat in Hk, Hf.
  apply list_elem_of_lookup in Hc as [i Hi].
  destruct (Forall2_lookup_l _ _ _ _ _ Hk Hi) as (r & Hr & Hid & Hemp).
  assert (length recl' ≤ 20)%nat as Hlen.
  { rewrite <- (Forall2_length _ _ _ Hk). etrans; [apply length_filter|].
    rewrite length_take. lia. }
  rewrite bool_decide_eq_false_2.
  2:{ apply lookup_lt_Some in Hr. lia. }
  apply so_relogio_intocado in Hs as (Hb & _). cbn in Hb.
  assert (sem_falhas (S (length recl')) m1') as Hok1.
  { unfold sem_falhas in *. rewrite Hb.
    eapply (sem_falhas_menos _ 21 m); [lia|done]. }
  pose proof Hok1 as [H0 Hok0]%sem_falhas_S.
  rewrite salvarReclamacoesDB_conectado by done.
  pose proof (laco_salvar_sem_falhas_guarda recl'
                {| salvos := 0; duplicados := 0 |} (avanca m1') Hok0) as Hg.
  destruct (laco_salvar_total recl' {| salvos := 0; duplicados := 0 |} (avanca m1'))
    as (m2 & c2 & E2).
  rewrite E2 in *. cbn [fst snd] in *.
  rewrite Forall_forall in Hg.
  destruct (Hg r) as (row & Hrow & Hrid & Hremp).
  { by eapply list_elem_of_lookup_2. }
  exists row. split; [done|]. split; congruence.
Qed.

Lemma executarMonitoramento_guarda_witness :
  ∃ row,
    row ∈ reclamacoes
            (banco (executarMonitoramento "Acme"
                      (com_rede [Resolve pagina_exemplo] mundo_vazio)).1)
    ∧ col_empresa row = "Acme"
    ∧ id_externo row = Some "produto-nao-entregue_123456".
Proof.
  apply (executarMonitoramento_guarda "Acme" pagina_exemplo
           {| texto_titulo := " Produto não entregue ";
              texto_descricao := "Comprei e não chegou";
              texto_status := "Não respondida";
              texto_data := "02/11/2026";
              texto_local := "São Paulo - SP";
              href := Some "/acme/produto-nao-entregue_123456" |}
           [] mundo_vazio).
  - vm_compute. constructor.
  - vm_compute. apply list_elem_of_In. cbn. auto.
Defined.

(** ** The routes *)

(** X16. GET /api/buscar/:empresa fetches without storing.  The route
    always answers: 200 with the records fetched, at most 20, and their
    number, or 500 when the fetch throws; the database and the scheduler
    are as they were. *)
Theorem get_buscar_nao_persiste (emp : string) (m : Mundo) :
  ∃ m' resp,
    get_buscar emp m = (m', Retorno resp)
    ∧ intocado m m'
    ∧ match busca_corpo resp with
      | BuscaSucesso e total recl =>
          busca_status resp = 200 ∧ e = emp
          ∧ total = length recl ∧ (total ≤ 20)%nat
      | BuscaErro _ _ => busca_status resp = 500
      end.
Proof.
  unfold get_buscar, tenta, liga.
  pose proof (buscarReclamacoes_efeito emp m) as (Hi & _ & Hr).
  destruct (buscarReclamacoes emp m) as [m1 [recl|e]]; cbn [fst snd] in *.
  - eexists _, _. split; [reflexivity|]. split; [done|]. cbn. by destruct Hr.
  - eexists _, _. split; [reflexivity|]. split; [|done].
    destruct Hi as (? & ? & ? & ?). by repeat split.
Qed.

(** X17. GET /api/reclamacoes/:empresa always answers and changes no row.
    Its answer is 200 with rows of the company, their number being at most
    the limit of the query, and at most 50 when the query has no limit, an
    unreadable one, or 0; or it is 500, which happens only when the engine
    refuses the connection or the query, or the limit is negative. *)
Theorem get_reclamacoes_limite (emp : string) (query_limite : option Z) (m : Mundo) :
  ∃ m' resp,
    get_reclamacoes emp query_limite m = (m', Retorno resp)
    ∧ reclamacoes (banco m') = reclamacoes (banco m)
    ∧ configuracoes (banco m') = configuracoes (banco m)
    ∧ match corpo resp with
      | CorpoReclamacoes e total linhas =>
          status_http resp = 200 ∧ e = emp ∧ total = length linhas
          ∧ Forall (λ l, col_empresa l = emp) linhas
          ∧ match query_limite with
            | Some 0 | None => Z.of_nat total ≤ 50
            | Some n => Z.of_nat total ≤ n
            end
      | CorpoErro _ _ =>
          status_http resp = 500
          ∧ (¬ sem_falhas 2 m ∨ ∃ n, query_limite = Some n ∧ n < 0)
      | CorpoMensagem _ _ => False
      end.
Proof.
  unfold get_reclamacoes, tenta, liga, buscarReclamacoesDB.
  change (default 50 (Some (limite_da_query query_limite)))
    with (limite_da_query query_limite).
  rewrite consulta_protegida.
  destruct (hd None (falhas (banco m))) as [e0|] eqn:H0.
  { eexists _, _. split; [reflexivity|]. cbn. split_and!; [done..|].
    left. rewrite sem_falhas_2. intros [? ?]. congruence. }
  destruct (hd None (falhas (banco (avanca m)))) as [e1|] eqn:H1.
  { eexists _, _. split; [reflexivity|]. cbn. split_and!; [done..|].
    left. rewrite sem_falhas_2. intros [? ?]. congruence. }
  cbv zeta.
  destruct (decide (0 ≤ limite_da_query query_limite)) as [Hn|Hn].
  - destruct (sql_select_por_empresa_linhas emp (limite_da_query query_limite)
                (banco (avanca (avanca m))) Hn)
      as (linhas & E & Hlen & Hemp & _).
    rewrite E. cbn [fst snd]. eexists _, _. split; [reflexivity|]. cbn.
    split_and!; [done..|].
    unfold limite_da_query in Hlen.
    destruct query_limite as [[|p|p]|]; cbn in Hlen; done.
  - unfold sql_select_por_empresa. rewrite bool_decide_eq_true_2 by lia.
    cbn [fst snd]. eexists _, _. split; [reflexivity|]. cbn.
    split_and!; [done..|]. right.
    unfold limite_da_query in Hn.
    destruct query_limite as [n|]; [|lia].
    case_bool_decide; [lia|]. exists n. split; [done|lia].
Qed.

Lemma banco_avanca m :
  banco (avanca m) = com_falhas (tail (falhas (banco m))) (banco m).
Proof. reflexivity. Qed.

(** The listing reads the database and nothing else. *)
Lemma obterConfiguracoes_so_banco ap m1 m2 :
  banco m1 = banco m2 →
  (obterConfiguracoes ap m1).2 = (obterConfiguracoes ap m2).2.
Proof.
  intros Hb. unfold obterConfiguracoes. rewrite !consulta_protegida.
  assert (banco (avanca m1) = banco (avanca m2)) as Hb1
    by (by rewrite !banco_avanca, Hb).
  assert (banco (avanca (avanca m1)) = banco (avanca (avanca m2))) as Hb2
    by (by rewrite (banco_avanca (avanca m1)), (banco_avanca (avanca m2)), Hb1).
  rewrite Hb, Hb1, Hb2.
  destruct (hd None (falhas (banco m2))); [done|].
  by destruct (hd None (falhas (banco (avanca m2)))).
Qed.

Lemma post_monitoramento_parar_efeito body m :
  banco (post_monitoramento_parar body m).1 = banco m
  ∧ ∀ emp, body = Some emp → emp ≠ "" →
      jobsAtivos (post_monitoramento_parar body m).1 !! emp = None.
Proof.
  unfold post_monitoramento_parar, tenta, liga.
  destruct body as [emp|]; cbn [ausente].
  - unfold truthy. case_bool_decide as He; cbn [negb].
    + split; [done|]. intros ? [= <-] ?. done.
    + change (default "" (Some emp)) with emp.
      pose proof (pararMonitoramento_banco emp m) as Hb.
      pose proof (pararMonitoramento_retorna emp m) as Hr.
      pose proof (pararMonitoramento_remove emp m) as Hn.
      destruct (pararMonitoramento emp m) as [m' r]. cbn in *. subst r.
      split; [done|]. by intros ? [= <-] _.
  - split; [done|]. by intros.
Qed.

(** The database after the route that starts a monitoring is the one
    [salvarConfiguracao] left. *)
Lemma post_monitoramento_iniciar_banco emp itv m :
  emp ≠ "" → itv ≠ "" → sem_falhas 2 m →
  banco (post_monitoramento_iniciar (Some emp) (Some itv) m).1
  = banco (salvarConfiguracao emp itv m).1.
Proof.
  intros Hemp Hitv [H0 H1]%sem_falhas_2.
  assert (ausente (Some emp) || ausente (Some itv) = false) as Ha.
  { unfold ausente, truthy. by rewrite !bool_decide_eq_false_2. }
  unfold post_monitoramento_iniciar. rewrite Ha.
  change (default "" (Some emp)) with emp.
  change (default "" (Some itv)) with itv.
  unfold tenta, liga. rewrite salvarConfiguracao_gravada by done.
  set (m1 := com_banco _ _).
  pose proof (iniciarMonitoramento_banco emp itv m1) as Hb.
  by destruct (iniciarMonitoramento emp itv m1) as [m2 [b|erro]].
Qed.

(** The answer of GET /api/monitoramento/lista when the listing returns. *)
Lemma get_monitoramento_lista_resposta m linhas :
  (obterConfiguracoes None m).2 = Retorno linhas →
  (get_monitoramento_lista m).2
  = Retorno {| lista_status := 200;
               lista_corpo := ListaSucesso (length linhas) linhas |}.
Proof.
  unfold get_monitoramento_lista, tenta, liga.
  destruct (obterConfiguracoes None m) as [m' [l|e]]; [|done].
  by intros [= ->].
Qed.

(** X18. Stopping does not deactivate.  After a monitoring was started
    through POST /api/monitoramento/iniciar and stopped through POST
    /api/monitoramento/parar, [statusMonitoramento] reports the company
    inactive, while GET /api/monitoramento/lista still answers with its
    active row. *)
Theorem parar_nao_desativa (emp itv : string) (m : Mundo)
    (Hemp : emp ≠ "") (Hitv : itv ≠ "") (Hok : sem_falhas 4 m) :
  let m1 := (post_monitoramento_iniciar (Some emp) (Some itv) m).1 in
  let m2 := (post_monitoramento_parar (Some emp) m1).1 in
  sm_ativo (statusMonitoramento emp m2) = false
  ∧ ∃ linhas c,
      (get_monitoramento_lista m2).2
      = Retorno {| lista_status := 200;
                   lista_corpo := ListaSucesso (length linhas) linhas |}
      ∧ c ∈ linhas
      ∧ cfg_empresa c = emp ∧ cfg_intervalo c = itv ∧ ativo c = true.
Proof.
  intros m1 m2.
  assert (sem_falhas 2 m) as Hok2
    by (eapply sem_falhas_menos; [|exact Hok]; lia).
  pose proof (post_monitoramento_parar_efeito (Some emp) m1) as [Hb Hn].
  fold m2 in Hb, Hn. split.
  { unfold statusMonitoramento. by rewrite (Hn emp eq_refl Hemp). }
  enough (∃ linhas c,
            (obterConfiguracoes None m2).2 = Retorno linhas
            ∧ c ∈ linhas
            ∧ cfg_empresa c = emp ∧ cfg_intervalo c = itv ∧ ativo c = true)
    as (linhas & c & Hl & Hrest).
  { exists linhas, c. split; [by apply get_monitoramento_lista_resposta|done]. }
  rewrite (obterConfiguracoes_so_banco None m2 (salvarConfiguracao emp itv m).1).
  2:{ rewrite Hb. by apply post_monitoramento_iniciar_banco. }
  pose proof Hok2 as [H0 H1]%sem_falhas_2.
  rewrite salvarConfiguracao_gravada by done.
  rewrite obterConfiguracoes_sem_falhas.
  2:{ eapply sem_falhas_apos_consulta; [exact Hok|].
      cbn. unfold sql_upsert_configuracao. by destruct (existsb _ _). }
  destruct (sql_upsert_configuracao_registra emp itv (banco (avanca (avanca m))))
    as (c & Hc & He & Hi & Ha).
  eexists _, c. split; [reflexivity|]. split; [|done].
  rewrite merge_sort_Permutation. cbn [default from_option].
  by apply list_elem_of_filter.
Qed.

Lemma parar_nao_desativa_witness :
  let m1 := (post_monitoramento_iniciar (Some "Acme") (Some "1h") mundo_vazio).1 in
  let m2 := (post_monitoramento_parar (Some "Acme") m1).1 in
  sm_ativo (statusMonitoramento "Acme" m2) = false
  ∧ ∃ linhas c,
      (get_monitoramento_lista m2).2
      = Retorno {| lista_status := 200;
                   lista_corpo := ListaSucesso (length linhas) linhas |}
      ∧ c ∈ linhas
      ∧ cfg_empresa c = "Acme" ∧ cfg_intervalo c = "1h" ∧ ativo c = true.
Proof.
  apply (parar_nao_desativa "Acme" "1h" mundo_vazio).
  - discriminate.
  - discriminate.
  - vm_compute. constructor.
Defined.

(** ** The rule of an interval *)

Lemma minuscula_idemp a : minuscula (minuscula a) = minuscula a.
Proof. by destruct a as [[] [] [] [] [] [] [] []]. Qed.

Lemma toLowerCase_idemp s : toLowerCase (toLowerCase s) = toLowerCase s.
Proof.
  induction s as [|a s IH]; [done|]. cbn. by rewrite minuscula_idemp, IH.
Qed.

Lemma propria_Some chave s :
  propria chave = Some s → s ∈ snd <$> conversoes.
Proof.
  unfold propria. destruct (find _ conversoes) as [[k v]|] eqn:E; [|done].
  intros [= <-]. apply find_some in E as [Hin _].
  apply list_elem_of_fmap. exists (k, v). split; [done|].
  by apply list_elem_of_In.
Qed.

Lemma conversoes_truthy s : s ∈ snd <$> conversoes → truthy s = true.
Proof.
  intros Hs.
  assert (Forall (λ s, truthy s = true) (snd <$> conversoes)) as Hf
    by (vm_compute; repeat constructor).
  rewrite Forall_forall in Hf. by apply Hf.
Qed.

(** X19. Whatever the token, [intervalParaCron] gives one of the cron
    strings of its table, or, when the lower-cased token names a property
    inherited from [Object.prototype], that inherited value; it never gives
    [undefined].  The letter case of the token does not matter. *)
Theorem intervalParaCron_regra (itv : string) :
  intervalParaCron (toLowerCase itv) = intervalParaCron itv
  ∧ match intervalParaCron itv with
    | VString expr => expr ∈ snd <$> conversoes
    | VObjeto nome =>
        nome = toLowerCase itv ∧ nome ∈ Object_prototype
        ∧ propria nome = None
    | VUndefined => False
    end.
Proof.
  split.
  { unfold intervalParaCron. by rewrite toLowerCase_idemp. }
  unfold intervalParaCron, conversoes_get.
  destruct (propria (toLowerCase itv)) as [s|] eqn:E.
  - pose proof (propria_Some _ _ E) as Hs. cbn [valor_truthy].
    by rewrite (conversoes_truthy s Hs).
  - case_bool_decide as Hh; cbn [valor_truthy].
    + done.
    + vm_compute. apply list_elem_of_In. cbn. auto.
Qed.
